(** * generate_changelog_html: a shallow embedding and its verified properties

    The script [scripts/generate_changelog_html.py] reads a changelog in
    Markdown, parses it into release records and renders them into an HTML
    page.  This file embeds the script's functions in Rocq and proves the
    properties its specification states about them.

    Text model.  A Python [str] is a sequence of code points; here a string is
    a [list ascii], the characters being the code points below 256 (Latin-1).
    The library predicates that depend on the character ([str.isspace],
    [str.lower], the [\d] class, [repr]) are given for exactly that range. *)

From Stdlib Require Import Ascii String List ZArith Lia Bool Arith.
Import ListNotations.

Local Open Scope list_scope.

(** ** Python strings *)

Definition str := list ascii.

(** A string literal of the source. *)
Definition lit (s : string) : str := list_ascii_of_string s.

(** The double quote and the line feed, which literals do not spell. *)
Definition dq : ascii := "034".
Definition nl : ascii := "010".

Module Py.

Definition code (c : ascii) : nat := nat_of_ascii c.

(** [str.isspace] on one character: TAB..CR, FS..US, SPACE, NEL, NBSP. *)
Definition isspace (c : ascii) : bool :=
  let n := code c in
  ((9 <=? n) && (n <=? 13)) || ((28 <=? n) && (n <=? 32))
  || (n =? 133) || (n =? 160).

(** The class [\d] of [re] on a [str] pattern: the decimal digits. *)
Definition isdigit (c : ascii) : bool :=
  let n := code c in (48 <=? n) && (n <=? 57).

(** [str.lower] on one character: A-Z, and the Latin-1 capitals but the
    multiplication sign. *)
Definition lower_char (c : ascii) : ascii :=
  let n := code c in
  if ((65 <=? n) && (n <=? 90))
     || ((192 <=? n) && (n <=? 222) && negb (n =? 215))
  then ascii_of_nat (n + 32) else c.

Definition lower (s : str) : str := map lower_char s.

(** [s.startswith(p)] *)
Fixpoint startswith (p s : str) : bool :=
  match p, s with
  | [], _ => true
  | _ :: _, [] => false
  | a :: p', b :: s' => Ascii.eqb a b && startswith p' s'
  end.

(** [p in s] for strings: [p] occurs in [s] as a contiguous run. *)
Fixpoint contains (p s : str) : bool :=
  startswith p s ||
  match s with
  | [] => false
  | _ :: s' => contains p s'
  end.

(** [s.lstrip()], [s.rstrip()] and [s.strip()] with no argument. *)
Fixpoint lstrip (s : str) : str :=
  match s with
  | c :: s' => if isspace c then lstrip s' else s
  | [] => []
  end.

Definition rstrip (s : str) : str := rev (lstrip (rev s)).

Definition strip (s : str) : str := rstrip (lstrip s).

(** [s.split(sep)] for a separator of one character. *)
Fixpoint split (sep : ascii) (s : str) : list str :=
  match s with
  | [] => [[]]
  | c :: s' =>
      if Ascii.eqb c sep then [] :: split sep s'
      else match split sep s' with
           | l :: ls => (c :: l) :: ls
           | [] => [[c]]
           end
  end.

(** [sep.join(parts)] *)
Fixpoint join (sep : str) (parts : list str) : str :=
  match parts with
  | [] => []
  | [p] => p
  | p :: ps => p ++ sep ++ join sep ps
  end.

(** [s.replace(old, new)] for a non-empty [old]: the occurrences of [old]
    are found from the left, without overlap, and the text put in their
    place is not scanned again.  [skip] counts the characters of a found
    occurrence that are still to be passed over. *)
Fixpoint replace_from (skip : nat) (old new s : str) : str :=
  match s with
  | [] => []
  | c :: s' =>
      match skip with
      | S k => replace_from k old new s'
      | 0 =>
          if startswith old s
          then new ++ replace_from (length old - 1) old new s'
          else c :: replace_from 0 old new s'
      end
  end.

Definition replace (old new s : str) : str := replace_from 0 old new s.

(** [repr] of a string: single quotes unless the text has a single quote
    and no double quote; the quote and the backslash are escaped, TAB, LF
    and CR are written with their letters, the other characters that are
    not printable as [\xhh]. *)
Definition isprintable (c : ascii) : bool :=
  let n := code c in
  ((32 <=? n) && (n <=? 126)) || ((161 <=? n) && negb (n =? 173)).

Definition hexdigit (n : nat) : ascii :=
  nth n (lit "0123456789abcdef") "0"%char.

Definition repr_char (quote c : ascii) : str :=
  if Ascii.eqb c quote || Ascii.eqb c "\" then ["\"%char; c]
  else if Ascii.eqb c "009" then lit "\t"
  else if Ascii.eqb c "010" then lit "\n"
  else if Ascii.eqb c "013" then lit "\r"
  else if isprintable c then [c]
  else lit "\x" ++ [hexdigit (code c / 16); hexdigit (code c mod 16)].

Definition repr_str (s : str) : str :=
  let quote :=
    if existsb (Ascii.eqb "'") s && negb (existsb (Ascii.eqb dq) s)
    then dq else "'"%char in
  [quote] ++ flat_map (repr_char quote) s ++ [quote].

(** [repr] of a list of strings, and of a dictionary from strings to
    lists of strings. *)
Definition repr_list (l : list str) : str :=
  lit "[" ++ join (lit ", ") (map repr_str l) ++ lit "]".

Definition repr_dict (d : list (str * list str)) : str :=
  lit "{" ++
  join (lit ", ")
       (map (fun kv => repr_str (fst kv) ++ lit ": " ++ repr_list (snd kv)) d)
  ++ lit "}".

End Py.

(** ** The fragment of [re] the script uses

    A pattern is a sequence of atoms.  Repetition applies to a character class
    only, the branches of an alternation are runs of character classes, and
    groups do not nest, which is all the patterns here need.
    Matching is the backtracking search of [re]: a greedy [+] takes the
    longest run first and gives characters back one at a time while the rest
    of the pattern fails. *)

Module Re.

Inductive atom : Type :=
| Lit (c : ascii)              (* the character itself *)
| Cls (p : ascii -> bool)      (* one character of a class *)
| Many1 (p : ascii -> bool)    (* class+, greedy *)
| Alt (alts : list (list (ascii -> bool)))
                               (* a|b|..., each a run of classes *)
| GOpen                        (* ( *)
| GClose                       (* ) *)
| Bol                          (* ^ *)
| Eol.                         (* $ *)

Definition pattern := list atom.

(** What a successful match gives: the groups in order, and the input
    left after the match. *)
Definition found : Type := list str * str.

(** Length of the longest prefix of [s] made of characters of [p]. *)
Fixpoint span (p : ascii -> bool) (s : str) : nat :=
  match s with
  | c :: s' => if p c then S (span p s') else 0
  | [] => 0
  end.

(** Tries [f k], [f (k-1)], ..., [f 1] and keeps the first success. *)
Fixpoint try_down {R : Type} (k : nat) (f : nat -> option R) : option R :=
  match k with
  | 0 => None
  | S k' => match f k with
            | Some r => Some r
            | None => try_down k' f
            end
  end.

(** Tries [f] on the branches in order and keeps the first success. *)
Fixpoint first_of {A R : Type} (l : list A) (f : A -> option R) : option R :=
  match l with
  | [] => None
  | a :: l' => match f a with
               | Some r => Some r
               | None => first_of l' f
               end
  end.

(** [s] starts with one character of each class of [cls], in order. *)
Fixpoint classes (cls : list (ascii -> bool)) (s : str) : bool :=
  match cls, s with
  | [], _ => true
  | p :: cls', c :: s' => p c && classes cls' s'
  | _ :: _, [] => false
  end.

(** The characters consumed while a group is open are added to it. *)
Definition push (cs : str) (cur : option str) : option str :=
  option_map (fun g => g ++ cs) cur.

(** [run r bol cur gs inp]: match [r] at the head of [inp]; [bol] tells
    whether the head of [inp] is the start of the subject string, [cur] is
    the text of the group being read, [gs] the groups already closed. *)
Fixpoint run (r : pattern) (bol : bool) (cur : option str) (gs : list str)
         (inp : str) {struct r} : option found :=
  match r with
  | [] => Some (gs, inp)
  | Lit c :: r' =>
      match inp with
      | x :: t => if Ascii.eqb x c then run r' false (push [x] cur) gs t
                  else None
      | [] => None
      end
  | Cls p :: r' =>
      match inp with
      | x :: t => if p x then run r' false (push [x] cur) gs t else None
      | [] => None
      end
  | Many1 p :: r' =>
      try_down (span p inp)
        (fun k => run r' false (push (firstn k inp) cur) gs (skipn k inp))
  | Alt alts :: r' =>
      first_of alts
        (fun cls =>
           if classes cls inp
           then run r' false (push (firstn (length cls) inp) cur) gs
                    (skipn (length cls) inp)
           else None)
  | GOpen :: r' => run r' bol (Some []) gs inp
  | GClose :: r' =>
      match cur with
      | Some g => run r' bol None (gs ++ [g]) inp
      | None => None
      end
  | Bol :: r' => if bol then run r' bol cur gs inp else None
  | Eol :: r' =>
      match inp with
      | [] => run r' bol cur gs inp
      | [x] => if Ascii.eqb x nl then run r' bol cur gs inp else None
      | _ => None
      end
  end.

(** [re.match(r, s)] *)
Definition rmatch (r : pattern) (s : str) : option found :=
  run r true None [] s.

(** [m.group(n)] for [n >= 1]. *)
Definition group (n : nat) (m : found) : str := nth (n - 1) (fst m) [].

(** A run of literal characters. *)
Definition lits (s : string) : pattern := map Lit (lit s).

(** [a{n}] *)
Definition times (n : nat) (a : atom) : pattern := repeat a n.

(** The class [[^c]] and the class [.] *)
Definition isnot (c : ascii) : ascii -> bool := fun x => negb (Ascii.eqb x c).
Definition dot : ascii -> bool := isnot nl.

(** [re.sub(r, repl, s)], where [repl] builds the replacement from the
    groups of the match.  The subject is scanned from the left; at a
    position where [r] matches, the replacement is written and the scan
    resumes after the match; elsewhere the character is copied.  [skip]
    counts the characters of the last match still to be passed over.  The
    patterns of the script match no empty string. *)
Fixpoint sub_from (r : pattern) (repl : found -> str) (skip : nat)
         (bol : bool) (s : str) : str :=
  match s with
  | [] => []
  | c :: s' =>
      match skip with
      | S k => sub_from r repl k false s'
      | 0 =>
          match run r bol None [] s with
          | Some m =>
              repl m ++ sub_from r repl (length s - length (snd m) - 1) false s'
          | None => c :: sub_from r repl 0 false s'
          end
      end
  end.

Definition sub (r : pattern) (repl : found -> str) (s : str) : str :=
  sub_from r repl 0 true s.

(** A pattern that cannot start on a character of [p]. *)
Definition fails_on (p : ascii -> bool) (r : pattern) : Prop :=
  forall x t cur gs, p x = true -> run r false cur gs (x :: t) = None.

End Re.

(** ** Python dictionaries

    A [dict] keeps its keys in insertion order, and the renderer walks the
    sections in that order, so a dictionary with string keys is an association
    list with no repeated key. *)

Module Dict.

Fixpoint str_eqb (a b : str) : bool :=
  match a, b with
  | [], [] => true
  | x :: a', y :: b' => Ascii.eqb x y && str_eqb a' b'
  | _, _ => false
  end.

Definition t (V : Type) : Type := list (str * V).

(** [d.get(k)], [None] when the key is absent. *)
Fixpoint get {V : Type} (k : str) (d : t V) : option V :=
  match d with
  | [] => None
  | (k', v) :: d' => if str_eqb k k' then Some v else get k d'
  end.

(** [k in d] *)
Definition mem {V : Type} (k : str) (d : t V) : bool :=
  match get k d with Some _ => true | None => false end.

(** [d[k] = v]: a key already present keeps its place and takes the new
    value, a new key goes last. *)
Fixpoint set {V : Type} (k : str) (v : V) (d : t V) : t V :=
  match d with
  | [] => [(k, v)]
  | (k', v') :: d' =>
      if str_eqb k k' then (k', v) :: d' else (k', v') :: set k v d'
  end.

Definition keys {V : Type} (d : t V) : list str := map fst d.

End Dict.

(** ** The parser *)

(** The dictionary built for a release header. *)
Record release : Type := mkRelease {
  version : str;
  date : str;
  title : str;
  tags : list (str * str);
  sections : Dict.t (list str)
}.

Definition set_sections (r : release) (s : Dict.t (list str)) : release :=
  mkRelease (version r) (date r) (title r) (tags r) s.

(** The exception a subscript on a missing key raises. *)
Inductive exn : Type :=
| KeyError (k : str).

Definition result (A : Type) : Type := (exn + A)%type.

(** [^## \[([^\]]+)\] - (\d{4}-\d{2}-\d{2})] *)
Definition release_re : Re.pattern :=
  [Re.Bol] ++ Re.lits "## [" ++
  [Re.GOpen; Re.Many1 (Re.isnot "]"); Re.GClose] ++ Re.lits "] - " ++
  [Re.GOpen] ++ Re.times 4 (Re.Cls Py.isdigit) ++ Re.lits "-" ++
  Re.times 2 (Re.Cls Py.isdigit) ++ Re.lits "-" ++
  Re.times 2 (Re.Cls Py.isdigit) ++ [Re.GClose].

(** [^### (.+)$] *)
Definition section_re : Re.pattern :=
  [Re.Bol] ++ Re.lits "### " ++
  [Re.GOpen; Re.Many1 Re.dot; Re.GClose; Re.Eol].

(** The local variables of [parse_changelog] that the loop updates. *)
Record pstate : Type := mkState {
  releases : list release;
  current_release : option release;
  current_section : option str
}.

(** Truth value of [current_release] (a dictionary with five keys, or
    [None]) and of [current_section] (a string, or [None]). *)
Definition release_truthy (r : option release) : bool :=
  match r with Some _ => true | None => false end.

Definition section_truthy (s : option str) : bool :=
  match s with Some (_ :: _) => true | _ => false end.

(** [releases.append(current_release)] under [if current_release:] *)
Definition flush (st : pstate) : list release :=
  match current_release st with
  | Some r => releases st ++ [r]
  | None => releases st
  end.

(** One turn of the [while] loop, on the line [line]. *)
Definition step (st : pstate) (line : str) : result pstate :=
  match Re.rmatch release_re line with
  | Some m =>
      inr (mkState (flush st)
             (Some (mkRelease (Re.group 1 m) (Re.group 2 m) [] [] []))
             None)
  | None =>
      match Re.rmatch section_re line, current_release st with
      | Some m, Some r =>
          let cs := Py.strip (Re.group 1 m) in
          inr (mkState (releases st)
                 (Some (set_sections r (Dict.set cs [] (sections r))))
                 (Some cs))
      | _, _ =>
          if Py.startswith (lit "- ") line
             && release_truthy (current_release st)
             && section_truthy (current_section st)
          then
            let item := Py.strip (skipn 2 line) in
            match current_release st, current_section st with
            | Some r, Some cs =>
                match Dict.get cs (sections r) with
                | Some items =>
                    inr (mkState (releases st)
                           (Some (set_sections r
                                    (Dict.set cs (items ++ [item]) (sections r))))
                           (current_section st))
                | None => inl (KeyError cs)
                end
            | _, _ => inr st
            end
          else inr st
      end
  end.

(** The loop over the lines, from the state [st]. *)
Fixpoint loop (lines : list str) (st : pstate) : result pstate :=
  match lines with
  | [] => inr st
  | line :: rest =>
      match step st line with
      | inr st' => loop rest st'
      | inl e => inl e
      end
  end.

Definition parse_changelog (content : str) : result (list release) :=
  match loop (Py.split nl content) (mkState [] None None) with
  | inr st => inr (flush st)
  | inl e => inl e
  end.

(** ** Dates: the part of [datetime] that [format_date] calls *)

Module Datetime.

Local Open Scope Z_scope.

Record datetime : Type := mkDate { year : Z; month : Z; day : Z }.

Definition between (lo hi : ascii) : ascii -> bool :=
  fun c => (Py.code lo <=? Py.code c)%nat && (Py.code c <=? Py.code hi)%nat.

Definition only (a : ascii) : ascii -> bool := fun c => Ascii.eqb c a.

(** The pattern [_strptime] compiles for the format [%Y-%m-%d]:
    [(?P<Y>\d\d\d\d)-(?P<m>1[0-2]|0[1-9]|[1-9])-(?P<d>3[0-1]|[1-2]\d|0[1-9]|[1-9]| [1-9])] *)
Definition ymd_re : Re.pattern :=
  [Re.GOpen] ++ Re.times 4 (Re.Cls Py.isdigit) ++ [Re.GClose; Re.Lit "-"] ++
  [Re.GOpen;
   Re.Alt [[only "1"; between "0" "2"]; [only "0"; between "1" "9"];
           [between "1" "9"]];
   Re.GClose; Re.Lit "-"] ++
  [Re.GOpen;
   Re.Alt [[only "3"; between "0" "1"]; [between "1" "2"; Py.isdigit];
           [only "0"; between "1" "9"]; [between "1" "9"];
           [only " "; between "1" "9"]];
   Re.GClose].

(** [int(s)] on a run of digits, blanks around it ignored. *)
Definition int (s : str) : Z :=
  fold_left (fun acc c => 10 * acc + (Z.of_nat (Py.code c) - 48))
            (Py.strip s) 0.

Definition is_leap (y : Z) : bool :=
  (y mod 4 =? 0) && (negb (y mod 100 =? 0) || (y mod 400 =? 0)).

Definition days_in_month (y m : Z) : Z :=
  if m =? 2 then (if is_leap y then 29 else 28)
  else if (m =? 4) || (m =? 6) || (m =? 9) || (m =? 11) then 30
  else 31.

(** The check of [date(year, month, day)]: [MINYEAR] is 1, [MAXYEAR] 9999. *)
Definition valid (y m d : Z) : bool :=
  (1 <=? y) && (y <=? 9999) && (1 <=? m) && (m <=? 12)
  && (1 <=? d) && (d <=? days_in_month y m).

(** [datetime.strptime(s, '%Y-%m-%d')]; [None] stands for [ValueError]:
    the pattern does not match, text is left after the match, or the
    fields are no date. *)
Definition strptime (s : str) : option datetime :=
  match Re.rmatch ymd_re s with
  | Some ([y; m; d], []) =>
      if valid (int y) (int m) (int d)
      then Some (mkDate (int y) (int m) (int d)) else None
  | _ => None
  end.

(** [%B] in the C locale. *)
Definition month_name (m : Z) : str :=
  nth (Z.to_nat (m - 1))
    (map lit ["January"; "February"; "March"; "April"; "May"; "June";
              "July"; "August"; "September"; "October"; "November";
              "December"]%string) [].

Definition digit (n : Z) : ascii := ascii_of_nat (Z.to_nat (48 + n mod 10)).

(** Zero-padded decimals of two and of four digits. *)
Definition dec2 (n : Z) : str := [digit (n / 10); digit n].
Definition dec4 (n : Z) : str :=
  [digit (n / 1000); digit (n / 100); digit (n / 10); digit n].

(** [%Y] as the GNU C library prints it, for the years 1 to 9999 that a
    [datetime] holds: the year in decimal, with no padding.  [datetime]
    leaves [%Y] to the C library, and so does [format_date]. *)
Definition year_unpadded (y : Z) : str :=
  if y <? 10 then [digit y]
  else if y <? 100 then dec2 y
  else if y <? 1000 then [digit (y / 100); digit (y / 10); digit y]
  else dec4 y.

Section Strftime.

(** [%Y] is printed by the C library of the platform.  From the year
    1000 on it is the four digits of the year; below, the GNU library
    prints the number as it is ([year_unpadded]) and others pad it with
    zeros ([dec4]), so [strftime] takes the rendering as a parameter. *)
Variable strftime_Y : Z -> str.

(** [dt.strftime('%B %d, %Y')]: [%d] is the day on two digits. *)
Definition strftime (dt : datetime) : str :=
  month_name (month dt) ++ lit " " ++ dec2 (day dt) ++ lit ", "
  ++ strftime_Y (year dt).

End Strftime.

End Datetime.

(** ** Escaping and inline markup *)

(** [escape_html(text)] *)
Definition escape_html (text : str) : str :=
  Py.replace (lit ">") (lit "&gt;")
    (Py.replace (lit "<") (lit "&lt;")
       (Py.replace (lit "&") (lit "&amp;") text)).

(** [\*\*([^*]+)\*\*] *)
Definition bold_re : Re.pattern :=
  Re.lits "**" ++ [Re.GOpen; Re.Many1 (Re.isnot "*"); Re.GClose]
  ++ Re.lits "**".

(** [`([^`]+)`] *)
Definition code_re : Re.pattern :=
  Re.lits "`" ++ [Re.GOpen; Re.Many1 (Re.isnot "`"); Re.GClose]
  ++ Re.lits "`".

(** [\[([^\]]+)\]\(([^)]+)\)] *)
Definition link_re : Re.pattern :=
  Re.lits "[" ++ [Re.GOpen; Re.Many1 (Re.isnot "]"); Re.GClose]
  ++ Re.lits "](" ++ [Re.GOpen; Re.Many1 (Re.isnot ")"); Re.GClose]
  ++ Re.lits ")".


(** ** Tags and title *)

(** [get_tags(release)] *)
Definition get_tags (release : release) : list (str * str) :=
  let tags : list (str * str) := [] in
  let sections := sections release in
  let tags :=
    if Dict.mem (lit "Added") sections
    then tags ++ [(lit "new", lit "New")] else tags in
  let tags :=
    if Dict.mem (lit "Changed") sections
    then tags ++ [(lit "feature", lit "Changed")] else tags in
  let tags :=
    if Dict.mem (lit "Fixed") sections
    then tags ++ [(lit "fix", lit "Fixed")] else tags in
  let tags :=
    if Dict.mem (lit "Breaking") sections
       || Py.contains (lit "BREAKING") (Py.repr_dict sections)
    then tags ++ [(lit "breaking", lit "Breaking")] else tags in
  let content := Py.lower (Py.repr_dict sections) in
  let tags :=
    if Py.contains (lit "auth") content
    then tags ++ [(lit "feature", lit "Authentication")]
    else if Py.contains (lit "resilience") content
            || Py.contains (lit "circuit") content
            || Py.contains (lit "retry") content
    then tags ++ [(lit "feature", lit "Resilience")]
    else if Py.contains (lit "cqrs") content
            || Py.contains (lit "event") content
    then tags ++ [(lit "feature", lit "CQRS")]
    else if Py.contains (lit "mcp") content
    then tags ++ [(lit "feature", lit "MCP")]
    else if Py.contains (lit "grpc") content
            || Py.contains (lit "graphql") content
            || Py.contains (lit "protocol") content
    then tags ++ [(lit "feature", lit "Multi-Protocol")]
    else if Py.contains (lit "shutdown") content
    then tags ++ [(lit "feature", lit "Production-Ready")]
    else if Py.contains (lit "security") content
    then tags ++ [(lit "feature", lit "Security")]
    else tags in
  firstn 4 tags.

(** The [for] loop of [get_title]: the group of the first item the pattern
    matches. *)
Fixpoint first_bold (items : list str) : option str :=
  match items with
  | [] => None
  | item :: rest =>
      match Re.rmatch bold_re item with
      | Some m => Some (Re.group 1 m)
      | None => first_bold rest
      end
  end.

(** [get_title(release)] *)
Definition get_title (release : release) : str :=
  let sections := sections release in
  let added :=
    match Dict.get (lit "Added") sections with
    | Some l => l
    | None => []
    end in
  match added with
  | added0 :: _ =>
      match first_bold added with
      | Some t => t
      | None =>
          if 50 <? length added0 then firstn 50 added0 ++ lit "..."
          else added0
      end
  | [] => lit "Version " ++ version release
  end.

(** A literal of the page: the backquote stands for the double quote, which
    the literals of the renderer and of the template use and the backquote
    they do not. *)
Definition html (s : string) : str :=
  map (fun c => if Ascii.eqb c "`" then dq else c) (lit s).

(** [format_item(item)] *)
Definition format_item (item : str) : str :=
  let item :=
    Re.sub bold_re
      (fun m => lit "<strong>" ++ Re.group 1 m ++ lit "</strong>") item in
  let item :=
    Re.sub code_re
      (fun m => html "<code class=`code-inline`>" ++ Re.group 1 m
                ++ lit "</code>") item in
  let item :=
    Re.sub link_re
      (fun m => html "<a href=`" ++ Re.group 2 m ++ html "`>"
                ++ Re.group 1 m ++ lit "</a>") item in
  item.

(** The element of one tag. *)
Definition tag_span (t : str * str) : str :=
  html "<span class=`tag " ++ fst t ++ html "`>" ++ snd t ++ lit "</span>".

(** The element of one list item. *)
Definition item_li (item : str) : str :=
  lit "<li>" ++ format_item item ++ lit "</li>".

(** The text added to [sections_html] for a section that has items. *)
Definition section_block (section_name : str) (items : list str) : str :=
  let items_html :=
    Py.join (lit "
                                ") (map item_li (firstn 10 items)) in
  html "
                        <div class=`section`>
                            <h3 class=`section-title`>" ++ escape_html section_name ++ html "</h3>
                            <ul>
                                " ++ items_html ++ html "
                            </ul>
                        </div>
".

(** The [for] loop over [sections.items()], from the text [acc]. *)
Fixpoint sections_loop (secs : Dict.t (list str)) (acc : str) : str :=
  match secs with
  | [] => acc
  | (section_name, items) :: rest =>
      match items with
      | [] => sections_loop rest acc
      | _ :: _ => sections_loop rest (acc ++ section_block section_name items)
      end
  end.

(** ** The renderer

    [strftime_Y] is the platform's rendering of [%Y] (see [Datetime]). *)

Section Renderer.

Variable strftime_Y : Z -> str.

(** [try: strptime, strftime; except: return date_str] *)
Definition format_date (date_str : str) : str :=
  match Datetime.strptime date_str with
  | Some dt => Datetime.strftime strftime_Y dt
  | None => date_str
  end.

(** The text the last f-string of [generate_release_html] builds from the
    values it interpolates. *)
Definition release_fragment (version date title tags_html sections_html : str)
  : str :=
  html "
                <!-- v" ++ version ++ html " -->
                <div class=`release`>
                    <div class=`release-meta`>
                        <div class=`release-date`>" ++ date ++ html "</div>
                        <div class=`release-version`>" ++ version
  ++ html "</div>
                    </div>
                    <div class=`release-content`>
                        <h2 class=`release-title`>" ++ escape_html title ++ html "</h2>
                        <div class=`release-tags`>
                            " ++ tags_html
  ++ html "
                        </div>
" ++ sections_html ++ html "
                    </div>
                </div>
".

(** [generate_release_html(release)] *)
Definition generate_release_html (release : release) : str :=
  let version := version release in
  let date := format_date (date release) in
  let title := get_title release in
  let tags := get_tags release in
  let sections := sections release in
  let tags_html := Py.join (lit "
                            ") (map tag_span tags) in
  let sections_html := sections_loop sections [] in
  release_fragment version date title tags_html sections_html.

Definition HTML_TEMPLATE : str :=
  html "<!DOCTYPE html>
<html lang=`en`>
<head>
    <meta charset=`UTF-8`>
    <meta name=`viewport` content=`width=device-width, initial-scale=1.0`>
    <title>Changelog - AllFrame</title>
    <meta name=`description` content=`AllFrame changelog - Track all releases, features, and improvements to the composable Rust API framework.`>
    <meta name=`keywords` content=`rust, web framework, changelog, releases, allframe`>
    <link rel=`canonical` href=`https://all-source-os.github.io/all-frame/changelog.html`>

    <!-- Open Graph -->
    <meta property=`og:title` content=`Changelog - AllFrame`>
    <meta property=`og:description` content=`Track all releases, features, and improvements to AllFrame.`>
    <meta property=`og:type` content=`website`>
    <meta property=`og:url` content=`https://all-source-os.github.io/all-frame/changelog.html`>

    <style>
        :root {
            --primary: #f74c00;
            --primary-dark: #d94400;
            --bg: #0d1117;
            --bg-secondary: #161b22;
            --bg-tertiary: #21262d;
            --text: #e6edf3;
            --text-muted: #8b949e;
            --border: #30363d;
            --green: #3fb950;
            --blue: #58a6ff;
            --purple: #a371f7;
            --yellow: #d29922;
        }

        * { margin: 0; padding: 0; box-sizing: border-box; }

        body {
            font-family: -apple-system, BlinkMacSystemFont, 'Segoe UI', 'Noto Sans', Helvetica, Arial, sans-serif;
            background: var(--bg);
            color: var(--text);
            line-height: 1.6;
        }

        a { color: var(--blue); text-decoration: none; }
        a:hover { text-decoration: underline; }

        .container { max-width: 1000px; margin: 0 auto; padding: 0 24px; }

        header {
            border-bottom: 1px solid var(--border);
            padding: 16px 0;
            position: sticky;
            top: 0;
            background: var(--bg);
            z-index: 100;
        }

        nav { display: flex; justify-content: space-between; align-items: center; }

        .logo {
            font-size: 1.5rem;
            font-weight: 700;
            color: var(--text);
            display: flex;
            align-items: center;
            gap: 8px;
        }

        .logo span { color: var(--primary); }

        .nav-links { display: flex; gap: 24px; align-items: center; }
        .nav-links a { color: var(--text-muted); font-size: 0.95rem; }
        .nav-links a:hover { color: var(--text); text-decoration: none; }

        .page-header { padding: 48px 0 32px; border-bottom: 1px solid var(--border); }
        .page-header h1 { font-size: 2.5rem; font-weight: 700; margin-bottom: 8px; }
        .page-header p { color: var(--text-muted); font-size: 1.1rem; }

        .timeline { padding: 40px 0; }

        .release {
            display: flex;
            gap: 32px;
            position: relative;
            padding-bottom: 48px;
        }

        .release:last-child { padding-bottom: 0; }

        .release-meta {
            width: 140px;
            flex-shrink: 0;
            position: sticky;
            top: 100px;
            align-self: flex-start;
        }

        .release-date { font-size: 0.9rem; color: var(--text-muted); margin-bottom: 12px; }

        .release-version {
            display: inline-flex;
            align-items: center;
            justify-content: center;
            width: 56px;
            height: 40px;
            background: var(--bg-secondary);
            border: 1px solid var(--border);
            border-radius: 8px;
            font-weight: 700;
            font-size: 0.9rem;
        }

        .release-content {
            flex: 1;
            position: relative;
            padding-left: 32px;
        }

        .release-content::before {
            content: '';
            position: absolute;
            left: 0;
            top: 8px;
            bottom: -48px;
            width: 1px;
            background: var(--border);
        }

        .release:last-child .release-content::before { bottom: 0; }

        .release-content::after {
            content: '';
            position: absolute;
            left: -5px;
            top: 8px;
            width: 11px;
            height: 11px;
            background: var(--primary);
            border-radius: 50%;
        }

        .release-title { font-size: 1.5rem; font-weight: 600; margin-bottom: 12px; }

        .release-tags { display: flex; flex-wrap: wrap; gap: 8px; margin-bottom: 20px; }

        .tag {
            display: inline-flex;
            align-items: center;
            padding: 4px 12px;
            background: var(--bg-tertiary);
            border: 1px solid var(--border);
            border-radius: 20px;
            font-size: 0.8rem;
            color: var(--text-muted);
        }

        .tag.new { background: rgba(63, 185, 80, 0.15); border-color: var(--green); color: var(--green); }
        .tag.breaking { background: rgba(247, 76, 0, 0.15); border-color: var(--primary); color: var(--primary); }
        .tag.feature { background: rgba(88, 166, 255, 0.15); border-color: var(--blue); color: var(--blue); }
        .tag.fix { background: rgba(163, 113, 247, 0.15); border-color: var(--purple); color: var(--purple); }

        .section { margin-bottom: 24px; }

        .section-title {
            font-size: 1rem;
            font-weight: 600;
            color: var(--text-muted);
            margin-bottom: 12px;
            text-transform: uppercase;
            letter-spacing: 0.05em;
        }

        .section ul { list-style: none; padding: 0; }

        .section li {
            position: relative;
            padding-left: 20px;
            margin-bottom: 8px;
            color: var(--text);
        }

        .section li::before {
            content: '';
            position: absolute;
            left: 0;
            top: 10px;
            width: 6px;
            height: 6px;
            background: var(--text-muted);
            border-radius: 50%;
        }

        .section li strong { color: var(--text); }

        .code-inline {
            background: var(--bg-tertiary);
            padding: 2px 6px;
            border-radius: 4px;
            font-family: 'SF Mono', 'Fira Code', monospace;
            font-size: 0.85em;
        }

        footer {
            padding: 40px 0;
            border-top: 1px solid var(--border);
            text-align: center;
            color: var(--text-muted);
            font-size: 0.9rem;
        }

        footer .links { display: flex; gap: 24px; justify-content: center; margin-bottom: 16px; }

        @media (max-width: 768px) {
            .release { flex-direction: column; gap: 16px; }
            .release-meta { width: 100%; position: static; display: flex; align-items: center; gap: 16px; }
            .release-content { padding-left: 0; }
            .release-content::before, .release-content::after { display: none; }
            .nav-links { display: none; }
        }
    </style>
</head>
<body>
    <header>
        <nav class=`container`>
            <a href=`index.html` class=`logo`>
                <span>All</span>Frame
            </a>
            <div class=`nav-links`>
                <a href=`index.html`>Home</a>
                <a href=`https://docs.rs/allframe`>Docs</a>
                <a href=`https://github.com/all-source-os/all-frame`>GitHub</a>
                <a href=`https://crates.io/crates/allframe`>crates.io</a>
            </div>
        </nav>
    </header>

    <main>
        <div class=`page-header`>
            <div class=`container`>
                <h1>Changelog</h1>
                <p>Track all releases, features, and improvements to AllFrame.</p>
            </div>
        </div>

        <div class=`timeline`>
            <div class=`container`>
{releases_html}
            </div>
        </div>
    </main>

    <footer>
        <div class=`container`>
            <div class=`links`>
                <a href=`index.html`>Home</a>
                <a href=`https://github.com/all-source-os/all-frame`>GitHub</a>
                <a href=`https://docs.rs/allframe`>Docs</a>
                <a href=`https://crates.io/crates/allframe`>crates.io</a>
            </div>
            <p>AllFrame - One frame. Infinite transformations. Built with TDD, from day zero.</p>
        </div>
    </footer>
</body>
</html>
".

(** [generate_html(releases)] *)
Definition generate_html (releases : list release) : str :=
  let releases_html :=
    concat (map generate_release_html (firstn 15 releases)) in
  Py.replace (lit "{releases_html}") releases_html HTML_TEMPLATE.

(** The main block between the reading of the file and the printing of the
    page: [parse_changelog], then [generate_html]. *)
Definition main_html (content : str) : result str :=
  match parse_changelog content with
  | inr releases => inr (generate_html releases)
  | inl e => inl e
  end.

End Renderer.

(** ** Notions of the specification *)

(** A date token: four digits, a hyphen, two digits, a hyphen, two digits. *)
Definition date_token (d : str) : bool :=
  match d with
  | [y1; y2; y3; y4; h1; m1; m2; h2; d1; d2] =>
      Py.isdigit y1 && Py.isdigit y2 && Py.isdigit y3 && Py.isdigit y4
      && Ascii.eqb h1 "-" && Py.isdigit m1 && Py.isdigit m2
      && Ascii.eqb h2 "-" && Py.isdigit d1 && Py.isdigit d2
  | _ => false
  end.

(** [release_header line v d]: [line] is a release header with the version
    token [v] and the date token [d]: the text [## [], a non-empty version
    with no closing bracket in it, the text [] - ], a date token, and
    anything after it. *)
Inductive release_header : str -> str -> str -> Prop :=
| ReleaseHeader (v d tail : str) :
    v <> [] -> ~ In "]"%char v -> date_token d = true ->
    release_header (lit "## [" ++ v ++ lit "] - " ++ d ++ tail) v d.

(** What the parser reads off a line with the release pattern. *)
Definition header_of (line : str) : option (str * str) :=
  match Re.rmatch release_re line with
  | Some m => Some (Re.group 1 m, Re.group 2 m)
  | None => None
  end.

(** The version and date tokens of the release headers among [lines], in
    order. *)
Fixpoint headers (lines : list str) : list (str * str) :=
  match lines with
  | [] => []
  | line :: rest =>
      match header_of line with
      | Some vd => vd :: headers rest
      | None => headers rest
      end
  end.

(** The label the parser reads off a line with the section pattern. *)
Definition section_of (line : str) : option str :=
  match Re.rmatch section_re line with
  | Some m => Some (Py.strip (Re.group 1 m))
  | None => None
  end.

(** A list item line, and the item it holds. *)
Definition is_item (line : str) : bool := Py.startswith (lit "- ") line.
Definition item_of (line : str) : str := Py.strip (skipn 2 line).

(** The items of the list item lines among [lines], in order. *)
Definition items_of (lines : list str) : list str :=
  map item_of (filter is_item lines).

(** The labels of the section headers among [lines], in order. *)
Fixpoint labels (lines : list str) : list str :=
  match lines with
  | [] => []
  | line :: rest =>
      match section_of line with
      | Some l => l :: labels rest
      | None => labels rest
      end
  end.

(** The names of [l] without repetition, each at the place where it is
    first seen. *)
Fixpoint first_seen (l : list str) : list str :=
  match l with
  | [] => []
  | k :: l' => k :: filter (fun x => negb (Dict.str_eqb x k)) (first_seen l')
  end.

(** The version and date of each record. *)
Definition tokens (rs : list release) : list (str * str) :=
  map (fun r => (version r, date r)) rs.

(** The parser on the lines of the document. *)
Definition parse_lines (lines : list str) : result (list release) :=
  match loop lines (mkState [] None None) with
  | inr st => inr (flush st)
  | inl e => inl e
  end.

(** The state in which the current section, if any, is a key of the open
    record: the subscript of the list item branch then finds its key. *)
Definition wf (st : pstate) : Prop :=
  match current_section st with
  | None => True
  | Some cs =>
      match current_release st with
      | Some r => Dict.mem cs (sections r) = true
      | None => False
      end
  end.

(** A string with no blank at either end. *)
Definition stripped (s : str) : Prop :=
  match s with
  | [] => True
  | c :: _ => Py.isspace c = false /\ Py.isspace (last s c) = false
  end.

(** What a line that is no release header does to the sections of the open
    record and to the current section. *)
Definition body_step (sc : Dict.t (list str) * option str) (line : str)
  : Dict.t (list str) * option str :=
  match section_of line with
  | Some l => (Dict.set l [] (fst sc), Some l)
  | None =>
      match snd sc with
      | Some cs =>
          if is_item line && section_truthy (snd sc)
          then match Dict.get cs (fst sc) with
               | Some items =>
                   (Dict.set cs (items ++ [item_of line]) (fst sc), snd sc)
               | None => sc
               end
          else sc
      | None => sc
      end
  end.

(** The current section, if any, is a key of the sections. *)
Definition wf_body (sc : Dict.t (list str) * option str) : Prop :=
  match snd sc with
  | Some cs => Dict.mem cs (fst sc) = true
  | None => True
  end.

(** Whether a line is a release header. *)
Definition is_header (line : str) : bool :=
  match header_of line with Some _ => true | None => false end.

(** What the title pattern reads at the start of an item. *)
Definition bold_of (item : str) : option str :=
  match Re.rmatch bold_re item with
  | Some m => Some (Re.group 1 m)
  | None => None
  end.

(** [bold_span item inner]: [item] begins with a bold span whose text is
    [inner]: two stars, a non-empty text with no star in it, two stars. *)
Inductive bold_span : str -> str -> Prop :=
| BoldSpan (inner rest : str) :
    inner <> [] -> ~ In "*"%char inner ->
    bold_span (lit "**" ++ inner ++ lit "**" ++ rest) inner.

(** The items of the section [Added], none when there is no such section. *)
Definition added_of (r : release) : list str :=
  match Dict.get (lit "Added") (sections r) with
  | Some l => l
  | None => []
  end.

(** A section of that name exists. *)
Definition has_section (name : str) (secs : Dict.t (list str)) : bool :=
  existsb (Dict.str_eqb name) (Dict.keys secs).

(** The topics, in order of priority: the keywords of each and its label. *)
Definition topic_table : list (list str * str) :=
  [([lit "auth"], lit "Authentication");
   ([lit "resilience"; lit "circuit"; lit "retry"], lit "Resilience");
   ([lit "cqrs"; lit "event"], lit "CQRS");
   ([lit "mcp"], lit "MCP");
   ([lit "grpc"; lit "graphql"; lit "protocol"], lit "Multi-Protocol");
   ([lit "shutdown"], lit "Production-Ready");
   ([lit "security"], lit "Security")].

(** The label of the first topic one of whose keywords occurs in [text]. *)
Definition topic_of (text : str) : option str :=
  option_map snd
    (find (fun g => existsb (fun k => Py.contains k text) (fst g))
          topic_table).

(** The tags before the cut: one for each of the sections [Added],
    [Changed], [Fixed], one for a breaking change, and at most one topic. *)
Definition tags_in_order (secs : Dict.t (list str)) : list (str * str) :=
  let dump := Py.repr_dict secs in
  (if has_section (lit "Added") secs then [(lit "new", lit "New")] else [])
  ++ (if has_section (lit "Changed") secs
      then [(lit "feature", lit "Changed")] else [])
  ++ (if has_section (lit "Fixed") secs then [(lit "fix", lit "Fixed")] else [])
  ++ (if has_section (lit "Breaking") secs
         || Py.contains (lit "BREAKING") dump
      then [(lit "breaking", lit "Breaking")] else [])
  ++ match topic_of (Py.lower dump) with
     | Some label => [(lit "feature", label)]
     | None => []
     end.

(** The sections that get a block in the page: those with an item. *)
Definition rendered_sections (secs : Dict.t (list str)) : Dict.t (list str) :=
  filter (fun kv => match snd kv with [] => false | _ :: _ => true end) secs.

(** The block of a section. *)
Definition block_of (kv : str * list str) : str :=
  section_block (fst kv) (snd kv).

(** The year, the month and the day a date token spells. *)
Definition token_year (s : str) : Z := Datetime.int (firstn 4 s).
Definition token_month (s : str) : Z := Datetime.int (firstn 2 (skipn 5 s)).
Definition token_day (s : str) : Z := Datetime.int (skipn 8 s).

(** The text without its leading zeros. *)
Fixpoint drop_zeros (s : str) : str :=
  match s with
  | c :: rest => if Ascii.eqb c "0" then drop_zeros rest else s
  | [] => []
  end.

(** The value of a digit. *)
Definition dval (c : ascii) : Z := Z.of_nat (Py.code c) - 48.

(** What escaping writes for one character. *)
Definition escape_char (c : ascii) : str :=
  if Ascii.eqb c "&" then lit "&amp;"
  else if Ascii.eqb c "<" then lit "&lt;"
  else if Ascii.eqb c ">" then lit "&gt;"
  else [c].

(** [p] occurs in [s]. *)
Definition occurs_in (p s : str) : Prop := exists pre post, s = pre ++ p ++ post.

(** The place of the first occurrence of [old] in [s]. *)
Fixpoint find_first (old s : str) : option nat :=
  if Py.startswith old s then Some 0
  else match s with
       | [] => None
       | _ :: s' => option_map S (find_first old s')
       end.

(** The placeholder of the template, and the template before and after it. *)
Definition placeholder : str := lit "{releases_html}".

Definition template_cut : nat :=
  Eval vm_compute in
    match find_first placeholder HTML_TEMPLATE with
    | Some n => n
    | None => 0
    end.

Definition template_head : str := firstn template_cut HTML_TEMPLATE.

Definition template_tail : str :=
  skipn (template_cut + length placeholder) HTML_TEMPLATE.

(** The five ways a turn of the loop can go. *)
Inductive step_view (st : pstate) (line : str) : result pstate -> Prop :=
| TurnHeader (v d : str) :
    header_of line = Some (v, d) ->
    step_view st line
      (inr (mkState (flush st) (Some (mkRelease v d [] [] [])) None))
| TurnSection (r : release) (cs : str) :
    header_of line = None -> section_of line = Some cs ->
    current_release st = Some r ->
    step_view st line
      (inr (mkState (releases st)
              (Some (set_sections r (Dict.set cs [] (sections r))))
              (Some cs)))
| TurnItem (r : release) (cs : str) (items : list str) :
    header_of line = None -> section_of line = None -> is_item line = true ->
    current_release st = Some r -> current_section st = Some cs -> cs <> [] ->
    Dict.get cs (sections r) = Some items ->
    step_view st line
      (inr (mkState (releases st)
              (Some (set_sections r
                       (Dict.set cs (items ++ [item_of line]) (sections r))))
              (Some cs)))
| TurnKeyError (r : release) (cs : str) :
    header_of line = None -> section_of line = None -> is_item line = true ->
    current_release st = Some r -> current_section st = Some cs -> cs <> [] ->
    Dict.get cs (sections r) = None ->
    step_view st line (inl (KeyError cs))
| TurnSkip :
    header_of line = None ->
    current_release st = None
    \/ (section_of line = None
        /\ (is_item line = false \/ section_truthy (current_section st) = false)) ->
    step_view st line (inr st).

(** The shape of a record: its tokens are those of a release header, and
    each of its items has the property [P]. *)
Definition shaped (P : str -> Prop) (r : release) : Prop :=
  version r <> [] /\ ~ In "]"%char (version r) /\ date_token (date r) = true
  /\ Forall (fun kv => Forall P (snd kv)) (sections r).

(** A text with none of the characters a span of markup starts with. *)
Definition plain (s : str) : Prop :=
  ~ In "*"%char s /\ ~ In "`"%char s /\ ~ In "["%char s.

(** What the parser leaves in the entries of a record that it does not fill,
    and in the names of its sections. *)
Definition kept (r : release) : Prop :=
  title r = [] /\ tags r = [] /\ NoDup (Dict.keys (sections r))
  /\ Forall stripped (Dict.keys (sections r)).

(** An ASCII letter, and a word of small ASCII letters. *)
Definition letter (c : ascii) : bool :=
  let n := Py.code c in
  ((65 <=? n) && (n <=? 90)) || ((97 <=? n) && (n <=? 122)).

Definition small_letter (c : ascii) : bool :=
  let n := Py.code c in (97 <=? n) && (n <=? 122).

Definition small_word (w : str) : bool := forallb small_letter w.

(** * Proofs *)

(** ** Strings and patterns: basic facts *)

Lemma str_eqb_eq (a b : str) : Dict.str_eqb a b = true <-> a = b.
Proof.
  revert b; induction a as [|x a IH]; intros [|y b]; simpl;
    try (split; [discriminate | congruence]); try tauto.
  rewrite andb_true_iff, Ascii.eqb_eq, IH.
  split; [intros [-> ->]; reflexivity | intros H; inversion H; auto].
Qed.

Lemma str_eqb_refl (a : str) : Dict.str_eqb a a = true.
Proof. apply str_eqb_eq; reflexivity. Qed.

Lemma str_eqb_neq (a b : str) : Dict.str_eqb a b = false <-> a <> b.
Proof.
  destruct (Dict.str_eqb a b) eqn:E.
  - apply str_eqb_eq in E; split; [discriminate | congruence].
  - split; [|reflexivity]. intros _ H. apply str_eqb_eq in H. congruence.
Qed.

Lemma startswith_app (p s : str) : Py.startswith p (p ++ s) = true.
Proof.
  induction p as [|a p IH]; simpl; [reflexivity|].
  rewrite Ascii.eqb_refl; exact IH.
Qed.

Lemma startswith_spec (p s : str) :
  Py.startswith p s = true <-> exists t, s = p ++ t.
Proof.
  split.
  - revert s; induction p as [|a p IH]; intros s H; simpl in *.
    + exists s; reflexivity.
    + destruct s as [|b s]; [discriminate|].
      apply andb_true_iff in H as [Hab H]. apply Ascii.eqb_eq in Hab; subst b.
      destruct (IH _ H) as [t ->]. exists t; reflexivity.
  - intros [t ->]. apply startswith_app.
Qed.

Module ReFacts.
Import Re.

Lemma try_down_none {R : Type} (f : nat -> option R) (k : nat) :
  (forall j, 1 <= j <= k -> f j = None) -> try_down k f = None.
Proof.
  induction k as [|k IH]; intros H; simpl; [reflexivity|].
  rewrite (H (S k)) by lia. apply IH. intros j Hj; apply H; lia.
Qed.

Lemma try_down_max {R : Type} (f : nat -> option R) (n : nat) :
  (forall j, 1 <= j < n -> f j = None) ->
  try_down n f = match n with 0 => None | S _ => f n end.
Proof.
  destruct n as [|n]; intros H; simpl; [reflexivity|].
  destruct (f (S n)); [reflexivity|].
  apply try_down_none. intros j Hj; apply H; lia.
Qed.

Lemma span_below (p : ascii -> bool) (s : str) (j : nat) :
  j < span p s -> exists x t, skipn j s = x :: t /\ p x = true.
Proof.
  revert j; induction s as [|c s IH]; intros j Hj; simpl in *; [lia|].
  destruct (p c) eqn:Hc; [|lia].
  destruct j as [|j]; simpl.
  - exists c, s; auto.
  - apply IH; lia.
Qed.

Lemma span_firstn (p : ascii -> bool) (s : str) :
  Forall (fun c => p c = true) (firstn (span p s) s).
Proof.
  induction s as [|c s IH]; simpl; [constructor|].
  destruct (p c) eqn:Hc; simpl; [constructor; auto | constructor].
Qed.

Lemma span_app (p : ascii -> bool) (v rest : str) :
  Forall (fun c => p c = true) v ->
  match rest with [] => True | x :: _ => p x = false end ->
  span p (v ++ rest) = length v.
Proof.
  intros Hv Hr. induction Hv as [|c v Hc Hv IH]; simpl.
  - destruct rest as [|x rest]; simpl; [reflexivity | now rewrite Hr].
  - now rewrite Hc, IH.
Qed.

(** With such a continuation, giving characters back never helps: the
    greedy run is the only candidate. *)
Lemma run_many1 (p : ascii -> bool) (r : pattern) bol cur gs inp :
  fails_on p r ->
  run (Many1 p :: r) bol cur gs inp =
  match span p inp with
  | 0 => None
  | S _ => run r false (push (firstn (span p inp) inp) cur) gs
               (skipn (span p inp) inp)
  end.
Proof.
  intros Hf. simpl.
  rewrite try_down_max; [reflexivity|].
  intros j Hj. destruct (span_below p inp j) as (x & t & -> & Hx); [lia|].
  apply Hf, Hx.
Qed.

Lemma fails_on_lit (c : ascii) (r : pattern) : fails_on (isnot c) (Lit c :: r).
Proof.
  intros x t cur gs Hx. simpl. unfold isnot in Hx.
  destruct (Ascii.eqb x c); [discriminate | reflexivity].
Qed.

Lemma fails_on_close (p : ascii -> bool) (r : pattern) :
  fails_on p r -> fails_on p (GClose :: r).
Proof.
  intros Hf x t cur gs Hx. simpl. destruct cur; [apply Hf, Hx | reflexivity].
Qed.

Lemma fails_on_eol (r : pattern) : fails_on dot (Eol :: r).
Proof.
  intros x t cur gs Hx. simpl. unfold dot, isnot in Hx.
  destruct t; [|reflexivity].
  destruct (Ascii.eqb x nl); [discriminate | reflexivity].
Qed.

Lemma run_lit_inv c r bol cur gs inp m :
  run (Lit c :: r) bol cur gs inp = Some m ->
  exists t, inp = c :: t /\ run r false (push [c] cur) gs t = Some m.
Proof.
  simpl. destruct inp as [|x t]; [discriminate|].
  destruct (Ascii.eqb_spec x c); [subst|discriminate].
  intros H; exists t; auto.
Qed.

Lemma run_cls_inv p r bol cur gs inp m :
  run (Cls p :: r) bol cur gs inp = Some m ->
  exists x t, inp = x :: t /\ p x = true
              /\ run r false (push [x] cur) gs t = Some m.
Proof.
  simpl. destruct inp as [|x t]; [discriminate|].
  destruct (p x) eqn:Hx; [|discriminate].
  intros H; exists x, t; auto.
Qed.

Lemma run_lit_cons c r bol cur gs t :
  run (Lit c :: r) bol cur gs (c :: t) = run r false (push [c] cur) gs t.
Proof. simpl. now rewrite Ascii.eqb_refl. Qed.

Lemma run_cls_cons p r bol cur gs x t :
  p x = true ->
  run (Cls p :: r) bol cur gs (x :: t) = run r false (push [x] cur) gs t.
Proof. intros H; simpl. now rewrite H. Qed.

End ReFacts.

(** Steps of a match that are computation only. *)
Ltac bol := change (Re.run (Re.Bol :: ?r) true ?c ?g ?i) with (Re.run r true c g i).
Ltac bol_in H :=
  change (Re.run (Re.Bol :: ?r) true ?c ?g ?i) with (Re.run r true c g i) in H.
Ltac gopen :=
  change (Re.run (Re.GOpen :: ?r) ?b ?c ?g ?i) with (Re.run r b (Some []) g i).
Ltac gopen_in H :=
  change (Re.run (Re.GOpen :: ?r) ?b ?c ?g ?i) with (Re.run r b (Some []) g i) in H.
Ltac gclose :=
  change (Re.run (Re.GClose :: ?r) ?b (Some ?g0) ?g ?i)
    with (Re.run r b None (g ++ [g0]) i).
Ltac gclose_in H :=
  change (Re.run (Re.GClose :: ?r) ?b (Some ?g0) ?g ?i)
    with (Re.run r b None (g ++ [g0]) i) in H.

(** ** The release header pattern *)

Section ReleasePattern.
Import Re ReFacts.

Lemma release_re_eq :
  release_re =
  [Bol; Lit "#"; Lit "#"; Lit " "; Lit "["; GOpen; Many1 (isnot "]");
   GClose; Lit "]"; Lit " "; Lit "-"; Lit " "; GOpen;
   Cls Py.isdigit; Cls Py.isdigit; Cls Py.isdigit; Cls Py.isdigit; Lit "-";
   Cls Py.isdigit; Cls Py.isdigit; Lit "-"; Cls Py.isdigit; Cls Py.isdigit;
   GClose].
Proof. reflexivity. Qed.

(** The pattern matches exactly the lines that start with [## [], a
    non-empty run with no closing bracket, [] - ] and a date token; the
    groups are the run and the token. *)
Lemma rmatch_release_re (line : str) (m : found) :
  rmatch release_re line = Some m <->
  exists v d tail,
    line = lit "## [" ++ v ++ lit "] - " ++ d ++ tail /\ v <> []
    /\ Forall (fun c => isnot "]" c = true) v /\ date_token d = true
    /\ m = ([v; d], tail).
Proof.
  unfold rmatch. rewrite release_re_eq. split.
  - intros H. bol_in H.
    apply run_lit_inv in H as (t1 & -> & H).
    apply run_lit_inv in H as (t2 & -> & H).
    apply run_lit_inv in H as (t3 & -> & H).
    apply run_lit_inv in H as (t4 & -> & H).
    gopen_in H.
    rewrite run_many1 in H by (apply fails_on_close, fails_on_lit).
    destruct (span (isnot "]") t4) eqn:Hn; [discriminate|].
    rewrite <- Hn in H.
    pose proof (span_firstn (isnot "]") t4) as Hv.
    pose proof (firstn_skipn (span (isnot "]") t4) t4) as Hsplit.
    assert (Hne : firstn (span (isnot "]") t4) t4 <> []).
    { rewrite Hn. destruct t4; [discriminate Hn | discriminate]. }
    set (v := firstn _ t4) in *. set (rest := skipn _ t4) in *.
    clearbody v rest. clear Hn. subst t4.
    simpl push in H. gclose_in H.
    apply run_lit_inv in H as (u1 & -> & H).
    apply run_lit_inv in H as (u2 & -> & H).
    apply run_lit_inv in H as (u3 & -> & H).
    apply run_lit_inv in H as (u4 & -> & H).
    gopen_in H. simpl push in H.
    apply run_cls_inv in H as (y1 & w1 & -> & Hy1 & H).
    apply run_cls_inv in H as (y2 & w2 & -> & Hy2 & H).
    apply run_cls_inv in H as (y3 & w3 & -> & Hy3 & H).
    apply run_cls_inv in H as (y4 & w4 & -> & Hy4 & H).
    apply run_lit_inv in H as (w5 & -> & H).
    apply run_cls_inv in H as (m1 & w6 & -> & Hm1 & H).
    apply run_cls_inv in H as (m2 & w7 & -> & Hm2 & H).
    apply run_lit_inv in H as (w8 & -> & H).
    apply run_cls_inv in H as (d1 & w9 & -> & Hd1 & H).
    apply run_cls_inv in H as (d2 & tail & -> & Hd2 & H).
    simpl in H. injection H as <-.
    exists v, [y1; y2; y3; y4; "-"%char; m1; m2; "-"%char; d1; d2], tail.
    repeat split; auto.
    simpl. now rewrite Hy1, Hy2, Hy3, Hy4, Hm1, Hm2, Hd1, Hd2.
  - intros (v & d & tail & -> & Hne & Hv & Hd & ->).
    destruct d as
      [|y1 [|y2 [|y3 [|y4 [|h1 [|m1 [|m2 [|h2 [|d1 [|d2 [|]]]]]]]]]]];
      try discriminate Hd.
    simpl in Hd. rewrite !andb_true_iff in Hd.
    destruct Hd as [[[[[[[[[Hy1 Hy2] Hy3] Hy4] Hh1] Hm1] Hm2] Hh2] Hd1] Hd2].
    apply Ascii.eqb_eq in Hh1, Hh2; subst h1 h2.
    bol. cbn [lit list_ascii_of_string app].
    rewrite !run_lit_cons. gopen.
    rewrite run_many1 by (apply fails_on_close, fails_on_lit).
    rewrite span_app by (auto; reflexivity).
    rewrite firstn_app, Nat.sub_diag, firstn_all, app_nil_r.
    rewrite skipn_app, Nat.sub_diag, skipn_all. simpl skipn. simpl app at 1.
    destruct (length v) eqn:Hl; [destruct v; [congruence | discriminate]|].
    simpl push. gclose. rewrite !run_lit_cons. gopen.
    repeat (first [rewrite run_lit_cons | rewrite run_cls_cons by assumption]).
    reflexivity.
Qed.

Lemma isnot_Forall (c : ascii) (v : str) :
  Forall (fun x => isnot c x = true) v <-> ~ In c v.
Proof.
  rewrite Forall_forall. unfold isnot. split.
  - intros H Hin. specialize (H c Hin). now rewrite Ascii.eqb_refl in H.
  - intros H x Hx. destruct (Ascii.eqb_spec x c); [subst; tauto | reflexivity].
Qed.

(** [header_of] reads the tokens of a release header, and of nothing
    else. *)
Lemma header_of_spec (line v d : str) :
  header_of line = Some (v, d) <-> release_header line v d.
Proof.
  unfold header_of. split.
  - destruct (rmatch release_re line) as [m|] eqn:E; [|discriminate].
    apply rmatch_release_re in E as (v' & d' & tail & -> & Hne & Hv & Hd & ->).
    cbn. intros H; injection H as <- <-.
    constructor; auto. now apply isnot_Forall.
  - intros [v0 d0 tail Hne Hv Hd].
    assert (E : rmatch release_re
                  (lit "## [" ++ v0 ++ lit "] - " ++ d0 ++ tail)
                = Some ([v0; d0], tail)).
    { apply rmatch_release_re. exists v0, d0, tail.
      repeat split; auto. now apply isnot_Forall. }
    now rewrite E.
Qed.

End ReleasePattern.

(** ** Dictionaries: basic facts *)

Section DictFacts.
Context {V : Type}.
Implicit Types (d : Dict.t V) (k : str) (v : V).

Lemma get_set_same k v d : Dict.get k (Dict.set k v d) = Some v.
Proof.
  induction d as [|[k' v'] d IH]; simpl.
  - now rewrite str_eqb_refl.
  - destruct (Dict.str_eqb k k') eqn:E; simpl; rewrite E; auto.
Qed.

Lemma get_set_other k k' v d :
  k <> k' -> Dict.get k (Dict.set k' v d) = Dict.get k d.
Proof.
  intros Hne. induction d as [|[k0 v0] d IH]; simpl.
  - apply str_eqb_neq in Hne. now rewrite Hne.
  - destruct (Dict.str_eqb k' k0) eqn:E; simpl.
    + apply str_eqb_eq in E; subst k0.
      apply str_eqb_neq in Hne. now rewrite Hne.
    + destruct (Dict.str_eqb k k0); auto.
Qed.

Lemma mem_set_same k v d : Dict.mem k (Dict.set k v d) = true.
Proof. unfold Dict.mem. now rewrite get_set_same. Qed.

Lemma mem_set k k' v d :
  Dict.mem k d = true -> Dict.mem k (Dict.set k' v d) = true.
Proof.
  intros H. destruct (list_eq_dec ascii_dec k k') as [->|Hne].
  - apply mem_set_same.
  - unfold Dict.mem in *. now rewrite get_set_other.
Qed.

Lemma mem_keys k d :
  Dict.mem k d = existsb (Dict.str_eqb k) (Dict.keys d).
Proof.
  unfold Dict.mem. induction d as [|[k' v'] d IH]; simpl; [reflexivity|].
  destruct (Dict.str_eqb k k'); simpl; auto.
Qed.

Lemma mem_In k d : Dict.mem k d = true <-> In k (Dict.keys d).
Proof.
  rewrite mem_keys, existsb_exists. split.
  - intros (x & Hx & E). apply str_eqb_eq in E. now subst.
  - intros H. exists k. split; [assumption | apply str_eqb_refl].
Qed.

Lemma get_In k v d : Dict.get k d = Some v -> In (k, v) d.
Proof.
  induction d as [|[k' v'] d IH]; simpl; [discriminate|].
  destruct (Dict.str_eqb k k') eqn:E.
  - apply str_eqb_eq in E. subst. intros H; injection H as ->. now left.
  - intros H. right. auto.
Qed.

Lemma In_get k v d :
  NoDup (Dict.keys d) -> In (k, v) d -> Dict.get k d = Some v.
Proof.
  induction d as [|[k' v'] d IH]; simpl; [tauto|].
  intros Hnd [H|H].
  - injection H as -> ->. now rewrite str_eqb_refl.
  - inversion Hnd as [|? ? Hk' Hd]; subst.
    destruct (Dict.str_eqb k k') eqn:E; [|auto].
    apply str_eqb_eq in E; subst k'. exfalso. apply Hk'.
    change (In (fst (k, v)) (map fst d)). now apply in_map.
Qed.

(** Writing to a key that is present keeps the keys as they are; a new key
    goes last. *)
Lemma keys_set k v d :
  Dict.keys (Dict.set k v d) =
  if Dict.mem k d then Dict.keys d else Dict.keys d ++ [k].
Proof.
  unfold Dict.mem. induction d as [|[k' v'] d IH]; simpl; [reflexivity|].
  destruct (Dict.str_eqb k k') eqn:E; simpl; [reflexivity|].
  rewrite IH. now destruct (Dict.get k d).
Qed.

Lemma set_Forall (P : str * V -> Prop) k v d :
  (forall k', P (k', v)) -> Forall P d -> Forall P (Dict.set k v d).
Proof.
  intros Hv. induction 1 as [|[k' v'] d Hx Hd IH]; simpl.
  - constructor; auto.
  - destruct (Dict.str_eqb k k'); constructor; auto.
Qed.

Lemma keys_set_NoDup k v d :
  NoDup (Dict.keys d) -> NoDup (Dict.keys (Dict.set k v d)).
Proof.
  intros H. rewrite keys_set. destruct (Dict.mem k d) eqn:E; [assumption|].
  apply NoDup_app; [assumption | repeat constructor; simpl; tauto |].
  intros x Hx [<-|[]]. apply mem_In in Hx. congruence.
Qed.

End DictFacts.

(** ** One turn of the parser's loop *)

Lemma step_viewP (st : pstate) (line : str) : step_view st line (step st line).
Proof.
  unfold step.
  destruct (Re.rmatch release_re line) as [m|] eqn:Eh.
  - apply TurnHeader. unfold header_of. now rewrite Eh.
  - assert (Hh : header_of line = None) by (unfold header_of; now rewrite Eh).
    destruct (current_release st) as [r|] eqn:Er.
    + destruct (Re.rmatch section_re line) as [m|] eqn:Es.
      * apply TurnSection; auto. unfold section_of. now rewrite Es.
      * assert (Hs : section_of line = None)
          by (unfold section_of; now rewrite Es).
        fold (is_item line). fold (item_of line).
        destruct (is_item line) eqn:Ei; simpl;
          [|apply TurnSkip; auto].
        destruct (current_section st) as [[|c cs]|] eqn:Ec; simpl;
          try (apply TurnSkip; auto; right; rewrite Ec; auto).
        destruct (Dict.get (c :: cs) (sections r)) as [items|] eqn:Eg.
        -- rewrite <- Ec at 1. destruct st as [rs cr cse]; simpl in *.
           subst cr cse. eapply TurnItem; simpl; eauto. discriminate.
        -- eapply TurnKeyError; eauto. discriminate.
    + assert (E : (Py.startswith (lit "- ") line && release_truthy None
                   && section_truthy (current_section st)) = false)
        by (simpl; now rewrite andb_false_r).
      destruct (Re.rmatch section_re line); rewrite E; apply TurnSkip; auto.
Qed.

(** A turn from a well-formed state raises nothing and ends in a
    well-formed state. *)
Lemma step_wf (st : pstate) (line : str) :
  wf st -> exists st', step st line = inr st' /\ wf st'.
Proof.
  intros Hwf. destruct (step_viewP st line) as
    [v d Hh | r cs Hh Hs Hr | r cs items Hh Hs Hi Hr Hc Hne Hg
    | r cs Hh Hs Hi Hr Hc Hne Hg | Hh Hskip].
  - eexists; split; [reflexivity | exact I].
  - eexists; split; [reflexivity|]. unfold wf; simpl. apply mem_set_same.
  - eexists; split; [reflexivity|]. unfold wf; simpl. apply mem_set_same.
  - exfalso. unfold wf in Hwf. rewrite Hc, Hr in Hwf.
    unfold Dict.mem in Hwf. rewrite Hg in Hwf. discriminate.
  - exists st; auto.
Qed.

Lemma loop_wf (lines : list str) (st : pstate) :
  wf st -> exists st', loop lines st = inr st' /\ wf st'.
Proof.
  revert st; induction lines as [|line rest IH]; intros st Hwf; simpl.
  - exists st; auto.
  - destruct (step_wf st line Hwf) as (st1 & -> & Hwf1). apply IH, Hwf1.
Qed.

Lemma loop_app (l1 l2 : list str) (st st1 : pstate) :
  loop l1 st = inr st1 -> loop (l1 ++ l2) st = loop l2 st1.
Proof.
  revert st; induction l1 as [|line rest IH]; intros st; simpl.
  - intros H; injection H as ->; reflexivity.
  - destruct (step st line) as [e|st']; [discriminate | apply IH].
Qed.

Lemma wf_init : wf (mkState [] None None).
Proof. exact I. Qed.

Lemma parse_changelog_lines (content : str) :
  parse_changelog content = parse_lines (Py.split nl content).
Proof. reflexivity. Qed.

(** ** Records and release headers *)

Lemma tokens_app (a b : list release) : tokens (a ++ b) = tokens a ++ tokens b.
Proof. apply map_app. Qed.

Lemma tokens_flush_set (rs : list release) (r : release) s cs :
  tokens (flush (mkState rs (Some (set_sections r s)) cs))
  = tokens (flush (mkState rs (Some r) cs)).
Proof. unfold flush; simpl. now rewrite !tokens_app. Qed.

(** A turn appends the tokens of its line when the line is a release header,
    and leaves the tokens of the records alone otherwise. *)
Lemma step_tokens (st st' : pstate) (line : str) :
  step st line = inr st' ->
  tokens (flush st') =
  tokens (flush st)
  ++ match header_of line with Some vd => [vd] | None => [] end.
Proof.
  intros H. pose proof (step_viewP st line) as V. rewrite H in V.
  destruct st as [rs cr cse].
  inversion V as
    [v d Hh E | r cs Hh Hs Hr E | r cs items Hh Hs Hi Hr Hc Hne Hg E
    | | Hh Hskip E]; subst; simpl in *; subst; rewrite Hh.
  - unfold flush at 1; simpl. now rewrite tokens_app.
  - now rewrite tokens_flush_set, app_nil_r.
  - now rewrite tokens_flush_set, app_nil_r.
  - now rewrite app_nil_r.
Qed.

Lemma loop_tokens (lines : list str) (st st' : pstate) :
  loop lines st = inr st' ->
  tokens (flush st') = tokens (flush st) ++ headers lines.
Proof.
  revert st; induction lines as [|line rest IH]; intros st; simpl.
  - intros H; injection H as ->. now rewrite app_nil_r.
  - destruct (step st line) as [e|st1] eqn:E; [discriminate|].
    intros H. rewrite (IH _ H), (step_tokens _ _ _ E), <- app_assoc.
    now destruct (header_of line).
Qed.

Lemma headers_length (lines : list str) :
  length (headers lines) = length (filter is_header lines).
Proof.
  unfold is_header.
  induction lines as [|line rest IH]; simpl; [reflexivity|].
  destruct (header_of line); simpl; now rewrite IH.
Qed.

(** C1.  For every document the parser returns one record for each line that
    is a release header, in the order of the lines: the k-th record carries
    the version and the date of the k-th such line, so a document with N
    release headers gives N records.  The release headers are the lines made
    of [## [], a non-empty version with no closing bracket, [] - ], a date
    token of the shape NNNN-NN-NN, and anything after. *)
Theorem parse_changelog_one_record_per_header (content : str) :
  exists rs,
    parse_changelog content = inr rs
    /\ tokens rs = headers (Py.split nl content)
    /\ length rs = length (filter is_header (Py.split nl content))
    /\ (forall line v d,
          header_of line = Some (v, d) <-> release_header line v d).
Proof.
  rewrite parse_changelog_lines. unfold parse_lines.
  destruct (loop_wf (Py.split nl content) _ wf_init) as (st & E & _).
  rewrite E. exists (flush st).
  pose proof (loop_tokens _ _ _ E) as T. simpl in T.
  repeat split.
  - exact T.
  - rewrite <- headers_length, <- T. unfold tokens. now rewrite length_map.
  - apply header_of_spec.
  - apply header_of_spec.
Qed.

(** ** Lines the parser drops *)

Lemma section_truthy_some (cs : str) :
  cs <> [] -> section_truthy (Some cs) = true.
Proof. destruct cs; [congruence | reflexivity]. Qed.

(** A line that is no release header leaves the state as it is when no
    record is open, and also when it is no section header and it is no list
    item or no section is current. *)
Lemma step_skip (st : pstate) (line : str) :
  header_of line = None ->
  current_release st = None
  \/ (section_of line = None
      /\ (is_item line = false \/ section_truthy (current_section st) = false)) ->
  step st line = inr st.
Proof.
  intros Hh Hc. destruct (step_viewP st line) as
    [v d Hh' | r cs Hh' Hs Hr | r cs items Hh' Hs Hi Hr Hcs Hne Hg
    | r cs Hh' Hs Hi Hr Hcs Hne Hg | Hh' Hskip]; try reflexivity; exfalso.
  - congruence.
  - destruct Hc as [Hc|[Hc _]]; congruence.
  - destruct Hc as [Hc|[_ [Hc|Hc]]]; try congruence.
    rewrite Hcs, section_truthy_some in Hc by assumption. discriminate.
  - destruct Hc as [Hc|[_ [Hc|Hc]]]; try congruence.
    rewrite Hcs, section_truthy_some in Hc by assumption. discriminate.
Qed.

Lemma loop_skip (lines : list str) (st : pstate) :
  Forall (fun line =>
            header_of line = None
            /\ (current_release st = None
                \/ (section_of line = None
                    /\ section_truthy (current_section st) = false))) lines ->
  loop lines st = inr st.
Proof.
  induction 1 as [|line rest [Hh Hc] _ IH]; simpl; [reflexivity|].
  rewrite step_skip; [exact IH | exact Hh | tauto].
Qed.

(** C7.  The parser raises nothing, whatever the text: it returns a list of
    records, which may be empty.  A section header met while no record is
    open, and a list item met while no record is open or no section is
    current, leave the state of the parser as it is; so the lines before the
    first release header, and the lines between a release header and the
    first section header after it, can be deleted from the document without
    changing the result. *)
Theorem parse_changelog_never_raises (content : str) :
  (exists rs, parse_changelog content = inr rs)
  /\ (forall st line,
        header_of line = None -> current_release st = None ->
        step st line = inr st)
  /\ (forall st line,
        header_of line = None -> section_of line = None ->
        section_truthy (current_section st) = false ->
        step st line = inr st)
  /\ (forall pre post,
        Forall (fun line => header_of line = None) pre ->
        parse_lines (pre ++ post) = parse_lines post)
  /\ (forall pre h mid post,
        header_of h <> None ->
        Forall (fun line => header_of line = None /\ section_of line = None)
               mid ->
        parse_lines (pre ++ h :: mid ++ post) = parse_lines (pre ++ h :: post)).
Proof.
  split; [|split; [|split; [|split]]].
  - rewrite parse_changelog_lines. unfold parse_lines.
    destruct (loop_wf (Py.split nl content) _ wf_init) as (st & -> & _).
    now exists (flush st).
  - intros st line Hh Hr. apply step_skip; auto.
  - intros st line Hh Hs Hc. apply step_skip; auto.
  - intros pre post Hpre. unfold parse_lines.
    rewrite (loop_app pre post _ (mkState [] None None)); [reflexivity|].
    apply loop_skip. eapply Forall_impl; [|exact Hpre].
    simpl. intros line Hh. auto.
  - intros pre h mid post Hh Hmid. unfold parse_lines.
    destruct (loop_wf pre _ wf_init) as (st0 & E0 & _).
    rewrite !(loop_app pre _ _ _ E0). simpl.
    destruct (header_of h) as [[v d]|] eqn:Eh; [|congruence].
    pose proof (step_viewP st0 h) as V.
    inversion V as [v' d' Hh' E | | | |]; try congruence.
    rewrite (loop_app mid post _
               (mkState (flush st0) (Some (mkRelease v' d' [] [] [])) None));
      [reflexivity|].
    apply loop_skip. eapply Forall_impl; [|exact Hmid].
    simpl. intros line [H1 H2]. auto.
Qed.

(** The theorem at work: a line before the first release header, and a list
    item and a line of prose between a release header and its first section
    header, are deleted without changing the result. *)
Lemma parse_changelog_never_raises_witness :
  parse_lines ([lit "- early"; lit "### Added"]
               ++ [lit "## [1.0] - 2025-01-02"; lit "### Added"; lit "- kept"])
  = parse_lines [lit "## [1.0] - 2025-01-02"; lit "### Added"; lit "- kept"]
  /\ parse_lines ([lit "intro"] ++ lit "## [1.0] - 2025-01-02"
                  :: [lit "- stray"; lit "prose"]
                  ++ [lit "### Added"; lit "- kept"])
     = parse_lines ([lit "intro"] ++ lit "## [1.0] - 2025-01-02"
                    :: [lit "### Added"; lit "- kept"]).
Proof.
  destruct (parse_changelog_never_raises []) as (_ & _ & _ & Hpre & Hmid).
  split.
  - apply Hpre. repeat constructor.
  - apply Hmid.
    + vm_compute. discriminate.
    + repeat constructor.
Defined.

(** ** The shape of the parsed records *)

Lemma lstrip_head (s : str) :
  match Py.lstrip s with [] => True | c :: _ => Py.isspace c = false end.
Proof.
  induction s as [|c s IH]; simpl; [exact I|].
  destruct (Py.isspace c) eqn:E; [exact IH | exact E].
Qed.

Lemma lstrip_suffix (s : str) : exists w, s = w ++ Py.lstrip s.
Proof.
  induction s as [|c s [w IH]]; simpl; [now exists []|].
  destruct (Py.isspace c).
  - exists (c :: w). simpl. now rewrite <- IH.
  - now exists [].
Qed.

Lemma rstrip_prefix (s : str) : exists w, s = Py.rstrip s ++ w.
Proof.
  unfold Py.rstrip. destruct (lstrip_suffix (rev s)) as [w E].
  exists (rev w). rewrite <- rev_app_distr, <- E. now rewrite rev_involutive.
Qed.

Lemma strip_stripped (s : str) : stripped (Py.strip s).
Proof.
  unfold Py.strip. set (t := Py.lstrip s).
  pose proof (lstrip_head s) as Hh. fold t in Hh.
  destruct (rstrip_prefix t) as [w Ew].
  unfold stripped. destruct (Py.rstrip t) as [|c u] eqn:Eu; [exact I|].
  split.
  - rewrite Ew in Hh. exact Hh.
  - unfold Py.rstrip in Eu.
    pose proof (lstrip_head (rev t)) as Hl.
    destruct (Py.lstrip (rev t)) as [|x z]; [discriminate Eu|].
    simpl in Eu. rewrite <- Eu. now rewrite last_last.
Qed.

Lemma step_shaped (P : str -> Prop) (st st' : pstate) (line : str) :
  (is_item line = true -> P (item_of line)) ->
  Forall (shaped P) (flush st) ->
  step st line = inr st' ->
  Forall (shaped P) (flush st').
Proof.
  intros HP Hst H. pose proof (step_viewP st line) as V. rewrite H in V.
  destruct st as [rs cr cse].
  inversion V as
    [v d Hh E | r cs Hh Hs Hr E | r cs items Hh Hs Hi Hr Hc Hne Hg E
    | | Hh Hskip E]; subst; simpl in *; subst; auto.
  - unfold flush at 1; simpl. apply Forall_app; split; [exact Hst|].
    apply header_of_spec in Hh. inversion Hh; subst.
    repeat constructor; auto.
  - unfold flush in *; simpl in *.
    apply Forall_app in Hst as [Hrs Hr]. apply Forall_app; split; [exact Hrs|].
    inversion Hr as [|? ? (Hv & Hb & Hd & Hsec) _]; subst.
    repeat constructor; auto. simpl.
    apply set_Forall; [constructor | exact Hsec].
  - unfold flush in *; simpl in *.
    apply Forall_app in Hst as [Hrs Hr]. apply Forall_app; split; [exact Hrs|].
    inversion Hr as [|? ? (Hv & Hb & Hd & Hsec) _]; subst.
    repeat constructor; auto. simpl.
    apply set_Forall; [|exact Hsec].
    intros k'. simpl. apply Forall_app; split; [|repeat constructor; auto].
    apply get_In in Hg. rewrite Forall_forall in Hsec.
    exact (Hsec _ Hg).
Qed.

Lemma loop_shaped (P : str -> Prop) (lines : list str) (st st' : pstate) :
  (forall line, In line lines -> is_item line = true -> P (item_of line)) ->
  Forall (shaped P) (flush st) ->
  loop lines st = inr st' ->
  Forall (shaped P) (flush st').
Proof.
  revert st; induction lines as [|line rest IH]; intros st HP Hst; simpl.
  - intros H; injection H as <-; exact Hst.
  - destruct (step st line) as [e|st1] eqn:E; [discriminate|].
    apply IH.
    + intros l Hl. apply HP. now right.
    + eapply step_shaped; eauto. apply HP. now left.
Qed.

(** C10.  In every record the parser returns, the version is not empty and
    holds no closing bracket, the date is ten characters of the shape
    NNNN-NN-NN, and every item of every section has no blank at its start
    and none at its end: it is what is left of a line of the document that
    starts with a dash and a space when the two are removed and the rest is
    trimmed. *)
Theorem parse_changelog_record_shape (content : str) :
  exists rs,
    parse_changelog content = inr rs
    /\ Forall
         (fun r =>
            version r <> [] /\ ~ In "]"%char (version r)
            /\ date_token (date r) = true /\ length (date r) = 10
            /\ forall name items item,
                 In (name, items) (sections r) -> In item items ->
                 stripped item
                 /\ exists line,
                      In line (Py.split nl content) /\ is_item line = true
                      /\ item = Py.strip (skipn 2 line))
         rs.
Proof.
  rewrite parse_changelog_lines. unfold parse_lines.
  destruct (loop_wf (Py.split nl content) _ wf_init) as (st & E & _).
  rewrite E. exists (flush st). split; [reflexivity|].
  set (P := fun item =>
              stripped item
              /\ exists line,
                   In line (Py.split nl content) /\ is_item line = true
                   /\ item = Py.strip (skipn 2 line)).
  assert (H : Forall (shaped P) (flush st)).
  { eapply loop_shaped; [| |exact E].
    - intros line Hl Hi. split; [apply strip_stripped|].
      exists line; auto.
    - constructor. }
  eapply Forall_impl; [|exact H].
  intros r (Hv & Hb & Hd & Hsec).
  split; [exact Hv|]. split; [exact Hb|]. split; [exact Hd|]. split.
  - destruct (date r) as
      [|y1 [|y2 [|y3 [|y4 [|h1 [|m1 [|m2 [|h2 [|d1 [|d2 [|]]]]]]]]]]];
      try discriminate Hd. reflexivity.
  - intros name items item Hin Hit.
    rewrite Forall_forall in Hsec. specialize (Hsec _ Hin). simpl in Hsec.
    rewrite Forall_forall in Hsec. exact (Hsec _ Hit).
Qed.

(** ** The section header pattern *)

Section SectionPattern.
Import Re ReFacts.

Lemma section_re_eq :
  section_re =
  [Bol; Lit "#"; Lit "#"; Lit "#"; Lit " "; GOpen; Many1 dot; GClose; Eol].
Proof. reflexivity. Qed.

(** The pattern matches the text [### ] followed by a non-empty label that
    runs to the end of the subject, a final line feed apart. *)
Lemma rmatch_section_re (line : str) (m : found) :
  rmatch section_re line = Some m <->
  exists label rest,
    line = lit "### " ++ label ++ rest /\ label <> []
    /\ Forall (fun c => dot c = true) label /\ (rest = [] \/ rest = [nl])
    /\ m = ([label], rest).
Proof.
  unfold rmatch. rewrite section_re_eq. split.
  - intros H. bol_in H.
    apply run_lit_inv in H as (t1 & -> & H).
    apply run_lit_inv in H as (t2 & -> & H).
    apply run_lit_inv in H as (t3 & -> & H).
    apply run_lit_inv in H as (t4 & -> & H).
    gopen_in H.
    rewrite run_many1 in H by (apply fails_on_close, fails_on_eol).
    destruct (span dot t4) eqn:Hn; [discriminate|].
    rewrite <- Hn in H.
    pose proof (span_firstn dot t4) as Hv.
    pose proof (firstn_skipn (span dot t4) t4) as Hsplit.
    assert (Hne : firstn (span dot t4) t4 <> []).
    { rewrite Hn. destruct t4; [discriminate Hn | discriminate]. }
    set (v := firstn _ t4) in *. set (rest := skipn _ t4) in *.
    clearbody v rest. clear Hn. subst t4.
    simpl push in H. gclose_in H.
    exists v, rest. simpl in H.
    destruct rest as [|x [|y rest]]; try discriminate H.
    + injection H as <-. repeat split; auto.
    + destruct (Ascii.eqb_spec x nl); [subst x | discriminate H].
      injection H as <-. repeat split; auto.
  - intros (label & rest & -> & Hne & Hv & Hrest & ->).
    bol. cbn [lit list_ascii_of_string app].
    rewrite !run_lit_cons. gopen.
    rewrite run_many1 by (apply fails_on_close, fails_on_eol).
    rewrite span_app; [|exact Hv|destruct Hrest as [->| ->]; [exact I|reflexivity]].
    rewrite firstn_app, Nat.sub_diag, firstn_all, app_nil_r.
    rewrite skipn_app, Nat.sub_diag, skipn_all. simpl skipn. simpl app at 1.
    destruct (length label) eqn:Hl; [destruct label; [congruence | discriminate]|].
    simpl push. gclose.
    destruct Hrest as [->| ->]; reflexivity.
Qed.

Lemma dot_Forall (v : str) : Forall (fun x => dot x = true) v <-> ~ In nl v.
Proof. apply isnot_Forall. Qed.

(** On a line of the document, which holds no line feed, the section
    pattern reads the trimmed text after [### ], which must not be empty
    before it is trimmed. *)
Lemma section_of_spec (line L : str) :
  ~ In nl line ->
  (section_of line = Some L <->
   exists label,
     label <> [] /\ line = lit "### " ++ label /\ L = Py.strip label).
Proof.
  intros Hnl. unfold section_of. split.
  - destruct (rmatch section_re line) as [m|] eqn:E; [|discriminate].
    apply rmatch_section_re in E as (label & rest & -> & Hne & Hv & Hrest & ->).
    cbn. intros H; injection H as <-.
    destruct Hrest as [->| ->].
    + exists label. rewrite app_nil_r. auto.
    + exfalso. apply Hnl. apply in_or_app. right. apply in_or_app. right.
      now left.
  - intros (label & Hne & -> & ->).
    assert (E : rmatch section_re (lit "### " ++ label) = Some ([label], [])).
    { apply rmatch_section_re. exists label, []. rewrite app_nil_r.
      repeat split; auto. apply dot_Forall. intros Hin. apply Hnl.
      apply in_or_app. now right. }
    now rewrite E.
Qed.

End SectionPattern.

Lemma split_no_sep (sep : ascii) (s : str) :
  Forall (fun line => ~ In sep line) (Py.split sep s).
Proof.
  induction s as [|c s IH]; simpl.
  - repeat constructor. simpl; tauto.
  - destruct (Ascii.eqb_spec c sep).
    + constructor; [simpl; tauto | exact IH].
    + destruct (Py.split sep s) as [|l ls]; inversion IH; subst;
        constructor; auto; simpl; intuition congruence.
Qed.

(** ** The lines of one release *)

Lemma set_sections_id (r : release) : set_sections r (sections r) = r.
Proof. now destruct r. Qed.

Lemma set_sections_twice (r : release) s s' :
  set_sections (set_sections r s) s' = set_sections r s'.
Proof. reflexivity. Qed.

Lemma body_step_wf sc (line : str) : wf_body sc -> wf_body (body_step sc line).
Proof.
  destruct sc as [secs cs]. unfold wf_body, body_step; cbn [fst snd].
  intros Hwf.
  destruct (section_of line) as [l|]; cbn [fst snd]; [apply mem_set_same|].
  destruct cs as [cs|]; cbn [fst snd]; [|exact I].
  destruct (is_item line && section_truthy (Some cs)); cbn [fst snd];
    [|exact Hwf].
  destruct (Dict.get cs secs); cbn [fst snd]; [apply mem_set_same | exact Hwf].
Qed.

(** While a record is open, a line that is no release header acts on the
    sections and on the current section as [body_step] says. *)
Lemma step_body (st : pstate) (line : str) (r : release) :
  header_of line = None -> current_release st = Some r -> wf st ->
  step st line =
  inr (mkState (releases st)
         (Some (set_sections r
                  (fst (body_step (sections r, current_section st) line))))
         (snd (body_step (sections r, current_section st) line))).
Proof.
  intros Hh Hr Hwf. unfold body_step; cbn [fst snd].
  destruct (step_viewP st line) as
    [v d Hh' | r' cs Hh' Hs Hr' | r' cs items Hh' Hs Hi Hr' Hcs Hne Hg
    | r' cs Hh' Hs Hi Hr' Hcs Hne Hg | Hh' Hskip].
  - congruence.
  - rewrite Hs; simpl. congruence.
  - rewrite Hs, Hcs, Hi, section_truthy_some by assumption; simpl.
    assert (r' = r) by congruence; subst r'. now rewrite Hg.
  - exfalso. unfold wf in Hwf. rewrite Hcs, Hr' in Hwf.
    unfold Dict.mem in Hwf. rewrite Hg in Hwf. discriminate.
  - destruct Hskip as [Hn|[Hs Hc]]; [congruence|]. rewrite Hs.
    assert (E : match current_section st with
                | Some cs =>
                    if is_item line && section_truthy (current_section st)
                    then match Dict.get cs (sections r) with
                         | Some items =>
                             (Dict.set cs (items ++ [item_of line])
                                (sections r), current_section st)
                         | None => (sections r, current_section st)
                         end
                    else (sections r, current_section st)
                | None => (sections r, current_section st)
                end = (sections r, current_section st)).
    { destruct (current_section st) as [cs|]; [|reflexivity].
      destruct Hc as [-> | ->]; [reflexivity | now rewrite andb_false_r]. }
    rewrite E; simpl. rewrite set_sections_id.
    destruct st; simpl in *; now subst.
Qed.

Lemma loop_body (lines : list str) (st : pstate) (r : release) :
  Forall (fun line => header_of line = None) lines ->
  current_release st = Some r -> wf st ->
  loop lines st =
  inr (mkState (releases st)
         (Some (set_sections r
                  (fst (fold_left body_step lines
                          (sections r, current_section st)))))
         (snd (fold_left body_step lines (sections r, current_section st)))).
Proof.
  intros Hl. revert st r.
  induction Hl as [|line rest Hh _ IH]; intros st r Hr Hwf; simpl.
  - rewrite set_sections_id. destruct st; simpl in *; now subst.
  - rewrite (step_body st line r Hh Hr Hwf).
    set (p := body_step (sections r, current_section st) line).
    assert (Hp : wf_body p).
    { apply body_step_wf. unfold wf, wf_body in *; simpl.
      rewrite Hr in Hwf. exact Hwf. }
    rewrite (IH _ (set_sections r (fst p))); [|reflexivity|].
    + simpl. now destruct p.
    + unfold wf; simpl. exact Hp.
Qed.

(** *** The order of the keys *)

Lemma filter_neq_idem (k : str) (l : list str) :
  filter (fun x => negb (Dict.str_eqb x k))
         (filter (fun x => negb (Dict.str_eqb x k)) l)
  = filter (fun x => negb (Dict.str_eqb x k)) l.
Proof.
  induction l as [|x l IH]; simpl; [reflexivity|].
  destruct (negb (Dict.str_eqb x k)) eqn:E; simpl; [rewrite E, IH|]; auto.
Qed.

Lemma filter_neq_comm (k k' : str) (l : list str) :
  filter (fun x => negb (Dict.str_eqb x k))
         (filter (fun x => negb (Dict.str_eqb x k')) l)
  = filter (fun x => negb (Dict.str_eqb x k'))
           (filter (fun x => negb (Dict.str_eqb x k)) l).
Proof.
  induction l as [|x l IH]; simpl; [reflexivity|].
  destruct (negb (Dict.str_eqb x k)) eqn:E, (negb (Dict.str_eqb x k')) eqn:E';
    simpl; rewrite ?E, ?E', ?IH; auto.
Qed.

Lemma first_seen_drop (k : str) (a b : list str) :
  filter (fun x => negb (Dict.str_eqb x k)) (first_seen (a ++ k :: b))
  = filter (fun x => negb (Dict.str_eqb x k)) (first_seen (a ++ b)).
Proof.
  induction a as [|x a IH]; simpl.
  - rewrite str_eqb_refl; simpl. apply filter_neq_idem.
  - destruct (negb (Dict.str_eqb x k)) eqn:E.
    + f_equal. rewrite filter_neq_comm, IH. apply filter_neq_comm.
    + apply negb_false_iff, str_eqb_eq in E; subst x.
      rewrite !filter_neq_idem. exact IH.
Qed.

(** A name that was seen before does not move when it is seen again. *)
Lemma first_seen_again (k : str) (a b : list str) :
  In k a -> first_seen (a ++ k :: b) = first_seen (a ++ b).
Proof.
  induction a as [|x a IH]; simpl; [tauto|].
  intros [->|Hin].
  - f_equal. apply first_seen_drop.
  - now rewrite IH.
Qed.

Lemma first_seen_NoDup (l : list str) : NoDup l -> first_seen l = l.
Proof.
  induction 1 as [|k l Hk Hl IH]; simpl; [reflexivity|].
  rewrite IH. f_equal. apply forallb_filter_id.
  apply forallb_forall. intros x Hx.
  apply negb_true_iff, str_eqb_neq. congruence.
Qed.

Lemma keys_body_step sc (line : str) :
  wf_body sc ->
  Dict.keys (fst (body_step sc line)) =
  match section_of line with
  | Some l => if Dict.mem l (fst sc) then Dict.keys (fst sc)
              else Dict.keys (fst sc) ++ [l]
  | None => Dict.keys (fst sc)
  end.
Proof.
  destruct sc as [secs cs]. unfold wf_body, body_step; cbn [fst snd].
  intros Hwf.
  destruct (section_of line) as [l|]; cbn [fst snd]; [apply keys_set|].
  destruct cs as [cs|]; cbn [fst snd]; [|reflexivity].
  destruct (is_item line && section_truthy (Some cs)); cbn [fst snd];
    [|reflexivity].
  destruct (Dict.get cs secs); cbn [fst snd]; [|reflexivity].
  now rewrite keys_set, Hwf.
Qed.

(** The keys of the sections are the labels met, each where it was first
    seen. *)
Lemma keys_body (lines : list str) sc :
  wf_body sc -> NoDup (Dict.keys (fst sc)) ->
  Dict.keys (fst (fold_left body_step lines sc))
  = first_seen (Dict.keys (fst sc) ++ labels lines).
Proof.
  revert sc. induction lines as [|line rest IH]; intros sc Hwf Hnd; simpl.
  - rewrite app_nil_r. symmetry. now apply first_seen_NoDup.
  - pose proof (keys_body_step sc line Hwf) as K.
    rewrite IH; [|now apply body_step_wf|].
    + rewrite K. destruct (section_of line) as [l|]; [|reflexivity].
      destruct (Dict.mem l (fst sc)) eqn:E.
      * symmetry. apply first_seen_again. now apply mem_In.
      * now rewrite <- app_assoc.
    + rewrite K. destruct (section_of line) as [l|]; [|exact Hnd].
      rewrite <- keys_set with (v := @nil str).
      now apply keys_set_NoDup.
Qed.

(** *** The contents of a section *)

Lemma items_of_cons (line : str) (rest : list str) :
  items_of (line :: rest) =
  if is_item line then item_of line :: items_of rest else items_of rest.
Proof. unfold items_of; simpl. now destruct (is_item line). Qed.

(** After the header of the section [L], the items of the lines up to the
    next section header are added to [L], in order. *)
Lemma fold_items (L : str) (b : list str) secs (items0 : list str) :
  L <> [] -> Dict.get L secs = Some items0 ->
  Forall (fun line => section_of line = None) b ->
  exists secs',
    fold_left body_step b (secs, Some L) = (secs', Some L)
    /\ Dict.get L secs' = Some (items0 ++ items_of b).
Proof.
  intros HL Hg Hb. revert secs items0 Hg.
  induction Hb as [|line rest Hs _ IH]; intros secs items0 Hg; simpl.
  - exists secs. now rewrite app_nil_r.
  - unfold body_step at 2; cbn [fst snd]. rewrite Hs, items_of_cons.
    rewrite section_truthy_some by assumption.
    destruct (is_item line); cbn [andb].
    + rewrite Hg.
      destruct (IH (Dict.set L (items0 ++ [item_of line]) secs)
                   (items0 ++ [item_of line])) as (secs' & E & G).
      { apply get_set_same. }
      exists secs'. split; [exact E|]. now rewrite G, <- app_assoc.
    + now apply IH.
Qed.

(** While another section is current, and as long as the header of [L] does
    not come back, the contents of [L] stay as they are. *)
Lemma fold_other (L : str) (b : list str) secs (cs : option str) :
  cs <> Some L ->
  Forall (fun line => section_of line <> Some L) b ->
  Dict.get L (fst (fold_left body_step b (secs, cs))) = Dict.get L secs.
Proof.
  intros Hcs Hb. revert secs cs Hcs.
  induction Hb as [|line rest Hs _ IH]; intros secs cs Hcs; simpl;
    [reflexivity|].
  unfold body_step at 2; cbn [fst snd].
  destruct (section_of line) as [l|].
  - rewrite IH by congruence. apply get_set_other. congruence.
  - destruct cs as [c|]; [|now apply IH].
    destruct (is_item line && section_truthy (Some c)); [|now apply IH].
    destruct (Dict.get c secs); [|now apply IH].
    rewrite IH by assumption. apply get_set_other. congruence.
Qed.

(** A section header whose label is already a key of the open record
    empties the items of that key and leaves every key at its place and the
    other sections as they are.  Hence, within one release, the keys of the
    sections are the labels of its section headers, each at the place where
    it was first seen; and a label that is not empty once trimmed ends with
    exactly the items listed between its last header and the next section
    header. *)
Lemma section_header_again :
  (forall st r line L,
     current_release st = Some r -> header_of line = None ->
     section_of line = Some L -> Dict.mem L (sections r) = true ->
     exists r',
       step st line = inr (mkState (releases st) (Some r') (Some L))
       /\ Dict.get L (sections r') = Some []
       /\ Dict.keys (sections r') = Dict.keys (sections r)
       /\ forall k, k <> L -> Dict.get k (sections r') = Dict.get k (sections r))
  /\ (forall rs v d b1 l b2 b3 L,
        Forall (fun line => header_of line = None) (b1 ++ l :: b2 ++ b3) ->
        section_of l = Some L -> L <> [] ->
        Forall (fun line => section_of line = None) b2 ->
        Forall (fun line => section_of line <> Some L) b3 ->
        b3 = [] \/ (exists x b3', b3 = x :: b3' /\ section_of x <> None) ->
        exists r cs,
          loop (b1 ++ l :: b2 ++ b3)
               (mkState rs (Some (mkRelease v d [] [] [])) None)
          = inr (mkState rs (Some r) cs)
          /\ version r = v /\ date r = d
          /\ Dict.get L (sections r) = Some (items_of b2)
          /\ Dict.keys (sections r)
             = first_seen (labels (b1 ++ l :: b2 ++ b3))).
Proof.
  split.
  - intros st r line L Hr Hh Hs Hm.
    pose proof (step_viewP st line) as V.
    inversion V as [v d Hh' | r' cs Hh' Hs' Hr' E | | |Hh' Hskip E];
      try congruence.
    + assert (r' = r) by congruence. assert (cs = L) by congruence. subst.
      eexists; split; [reflexivity|]. simpl.
      split; [apply get_set_same|]. split.
      * now rewrite keys_set, Hm.
      * intros k Hk. now apply get_set_other.
    + destruct Hskip as [Hn|[Hn _]]; congruence.
  - intros rs v d b1 l b2 b3 L Hh Hs HL Hb2 Hb3 Hnext.
    set (r0 := mkRelease v d [] [] []).
    set (st0 := mkState rs (Some r0) None).
    rewrite (loop_body _ st0 r0 Hh eq_refl I). simpl.
    set (p := fold_left body_step (b1 ++ l :: b2 ++ b3) ([], None)).
    exists (set_sections r0 (fst p)), (snd p).
    split; [reflexivity|]. split; [reflexivity|]. split; [reflexivity|].
    split.
    + subst p. rewrite fold_left_app. simpl. rewrite fold_left_app.
      set (sc1 := fold_left body_step b1 ([], None)).
      unfold body_step at 3. rewrite Hs.
      destruct (fold_items L b2 (Dict.set L [] (fst sc1)) [] HL
                  (get_set_same _ _ _) Hb2) as (secs2 & -> & G2).
      simpl app in G2.
      destruct Hnext as [->|(x & b3' & -> & Hx)]; [exact G2|].
      simpl. inversion Hb3 as [|? ? Hx' Hb3']; subst.
      unfold body_step at 2; cbn [fst snd].
      destruct (section_of x) as [l'|] eqn:Ex; [|congruence].
      rewrite fold_other by (try assumption; congruence).
      rewrite get_set_other by congruence. exact G2.
    + subst p. cbn [sections set_sections].
      now rewrite keys_body by (try exact I; constructor).
Qed.

(** The lemma at work: [### Added] comes twice in a release; the items
    after its second header are what the section keeps, and [Added] stays
    before [Fixed]. *)
Lemma section_header_again_witness :
  exists r cs,
    loop ([lit "### Added"; lit "- one"] ++ lit "### Added"
          :: [lit "- two"; lit "prose"; lit "- three"]
          ++ [lit "### Fixed"; lit "- four"])
         (mkState [] (Some (mkRelease (lit "1.0") (lit "2025-01-02") [] [] []))
                  None)
    = inr (mkState [] (Some r) cs)
    /\ version r = lit "1.0" /\ date r = lit "2025-01-02"
    /\ Dict.get (lit "Added") (sections r)
       = Some (items_of [lit "- two"; lit "prose"; lit "- three"])
    /\ Dict.keys (sections r)
       = first_seen
           (labels ([lit "### Added"; lit "- one"] ++ lit "### Added"
                    :: [lit "- two"; lit "prose"; lit "- three"]
                    ++ [lit "### Fixed"; lit "- four"])).
Proof.
  apply (proj2 section_header_again).
  - repeat constructor; vm_compute; reflexivity.
  - vm_compute; reflexivity.
  - discriminate.
  - repeat constructor; vm_compute; reflexivity.
  - repeat constructor; vm_compute; discriminate.
  - right. exists (lit "### Fixed"), [lit "- four"].
    split; [reflexivity | vm_compute; discriminate].
Defined.

(** C4, at a blank label.  The header [###  ] has the empty label once
    trimmed, and the header branch makes it a key of the record.  When the
    header comes again, the last occurrence should win and the section end
    with the item listed after it, [two].  The parser returns the key with
    no item: the list item branch tests the truth of [current_section], and
    the empty string is false, so both items are passed over.  With the
    label [A] in place of the blank one the same document ends with
    [two]. *)
Theorem blank_label_again :
  section_of (lit "###  ") = Some []
  /\ parse_changelog
       (Py.join [nl] [lit "## [1.0] - 2025-01-02"; lit "###  "; lit "- one"])
     = inr [mkRelease (lit "1.0") (lit "2025-01-02") [] [] [([], [])]]
  /\ parse_changelog
       (Py.join [nl] [lit "## [1.0] - 2025-01-02"; lit "###  "; lit "- one";
                      lit "###  "; lit "- two"])
     = inr [mkRelease (lit "1.0") (lit "2025-01-02") [] [] [([], [])]]
  /\ items_of [lit "- two"] = [lit "two"]
  /\ parse_changelog
       (Py.join [nl] [lit "## [1.0] - 2025-01-02"; lit "### A"; lit "- one";
                      lit "### A"; lit "- two"])
     = inr [mkRelease (lit "1.0") (lit "2025-01-02") [] []
              [(lit "A", [lit "two"])]].
Proof. vm_compute. repeat split. Qed.

(** ** The title *)

Section BoldPattern.
Import Re ReFacts.

Lemma bold_re_eq :
  bold_re =
  [Lit "*"; Lit "*"; GOpen; Many1 (isnot "*"); GClose; Lit "*"; Lit "*"].
Proof. reflexivity. Qed.

Lemma rmatch_bold_re (item : str) (m : found) :
  rmatch bold_re item = Some m <->
  exists inner rest,
    item = lit "**" ++ inner ++ lit "**" ++ rest /\ inner <> []
    /\ Forall (fun c => isnot "*" c = true) inner /\ m = ([inner], rest).
Proof.
  unfold rmatch. rewrite bold_re_eq. split.
  - intros H.
    apply run_lit_inv in H as (t1 & -> & H).
    apply run_lit_inv in H as (t2 & -> & H).
    gopen_in H.
    rewrite run_many1 in H by (apply fails_on_close, fails_on_lit).
    destruct (span (isnot "*") t2) eqn:Hn; [discriminate|].
    rewrite <- Hn in H.
    pose proof (span_firstn (isnot "*") t2) as Hv.
    pose proof (firstn_skipn (span (isnot "*") t2) t2) as Hsplit.
    assert (Hne : firstn (span (isnot "*") t2) t2 <> []).
    { rewrite Hn. destruct t2; [discriminate Hn | discriminate]. }
    set (v := firstn _ t2) in *. set (rest := skipn _ t2) in *.
    clearbody v rest. clear Hn. subst t2.
    simpl push in H. gclose_in H.
    apply run_lit_inv in H as (u1 & -> & H).
    apply run_lit_inv in H as (u2 & -> & H).
    simpl in H. injection H as <-.
    exists v, u2. repeat split; auto.
  - intros (inner & rest & -> & Hne & Hv & ->).
    cbn [lit list_ascii_of_string app].
    rewrite !run_lit_cons. gopen.
    rewrite run_many1 by (apply fails_on_close, fails_on_lit).
    rewrite span_app by (auto; reflexivity).
    rewrite firstn_app, Nat.sub_diag, firstn_all, app_nil_r.
    rewrite skipn_app, Nat.sub_diag, skipn_all. simpl skipn. simpl app at 1.
    destruct (length inner) eqn:Hl;
      [destruct inner; [congruence | discriminate]|].
    simpl push. gclose. rewrite !run_lit_cons. reflexivity.
Qed.

(** The title pattern reads the text of a leading bold span, and nothing
    else. *)
Lemma bold_of_spec (item t : str) : bold_of item = Some t <-> bold_span item t.
Proof.
  unfold bold_of. split.
  - destruct (rmatch bold_re item) as [m|] eqn:E; [|discriminate].
    apply rmatch_bold_re in E as (inner & rest & -> & Hne & Hv & ->).
    cbn. intros H; injection H as <-.
    constructor; auto. now apply isnot_Forall.
  - intros [inner rest Hne Hv].
    assert (E : rmatch bold_re (lit "**" ++ inner ++ lit "**" ++ rest)
                = Some ([inner], rest)).
    { apply rmatch_bold_re. exists inner, rest.
      repeat split; auto. now apply isnot_Forall. }
    now rewrite E.
Qed.

End BoldPattern.

Lemma bold_of_none (item : str) :
  bold_of item = None <-> forall t, ~ bold_span item t.
Proof.
  split.
  - intros E t H. apply bold_of_spec in H. congruence.
  - intros H. destruct (bold_of item) as [t|] eqn:E; [|reflexivity].
    apply bold_of_spec in E. now apply H in E.
Qed.

Lemma first_bold_eq (items : list str) :
  first_bold items =
  match items with
  | [] => None
  | item :: rest =>
      match bold_of item with Some t => Some t | None => first_bold rest end
  end.
Proof.
  destruct items as [|item rest]; [reflexivity|]. simpl. unfold bold_of.
  now destruct (Re.rmatch bold_re item).
Qed.

Lemma first_bold_found (pre : list str) (item : str) (post : list str) t :
  (forall x, In x pre -> bold_of x = None) -> bold_of item = Some t ->
  first_bold (pre ++ item :: post) = Some t.
Proof.
  intros Hpre Hitem. induction pre as [|x pre IH].
  - simpl app. rewrite first_bold_eq. now rewrite Hitem.
  - simpl app. rewrite first_bold_eq, (Hpre x) by now left.
    apply IH. intros y Hy. apply Hpre. now right.
Qed.

Lemma first_bold_none (items : list str) :
  (forall x, In x items -> bold_of x = None) -> first_bold items = None.
Proof.
  induction items as [|x items IH]; intros H; rewrite first_bold_eq;
    [reflexivity|].
  rewrite (H x) by now left. apply IH. intros y Hy. apply H. now right.
Qed.

Lemma get_title_eq (r : release) :
  get_title r =
  match added_of r with
  | added0 :: _ =>
      match first_bold (added_of r) with
      | Some t => t
      | None =>
          if 50 <? length added0 then firstn 50 added0 ++ lit "..."
          else added0
      end
  | [] => lit "Version " ++ version r
  end.
Proof. reflexivity. Qed.

(** C2.  The title of a record follows three rules, the first that applies:
    (1) when an item of the section [Added] begins with a bold span and no
    item before it does, the title is the text inside that span; (2) when
    the section has items and none begins with a bold span, the title is
    the first item: its first 50 characters followed by three dots when it
    is longer than 50 characters, the item itself otherwise; (3) when there
    is no section [Added], or it has no item, the title is [Version ]
    followed by the version of the record. *)
Theorem get_title_rules (r : release) :
  (forall pre item post inner,
     Dict.get (lit "Added") (sections r) = Some (pre ++ item :: post) ->
     (forall x t, In x pre -> ~ bold_span x t) ->
     bold_span item inner ->
     get_title r = inner)
  /\ (forall first rest,
        Dict.get (lit "Added") (sections r) = Some (first :: rest) ->
        (forall x t, In x (first :: rest) -> ~ bold_span x t) ->
        get_title r =
        if 50 <? length first then firstn 50 first ++ lit "..." else first)
  /\ (Dict.get (lit "Added") (sections r) = None
      \/ Dict.get (lit "Added") (sections r) = Some [] ->
      get_title r = lit "Version " ++ version r).
Proof.
  rewrite get_title_eq. unfold added_of. split; [|split].
  - intros pre item post inner -> Hpre Hitem.
    rewrite (first_bold_found pre item post inner).
    + now destruct pre.
    + intros x Hx. apply bold_of_none. intros t. now apply Hpre.
    + now apply bold_of_spec.
  - intros first rest -> Hnone.
    rewrite first_bold_none; [reflexivity|].
    intros x Hx. apply bold_of_none. intros t. now apply Hnone.
  - intros [-> | ->]; reflexivity.
Qed.

(** The three rules on three records. *)
Lemma get_title_rules_witness :
  get_title (mkRelease (lit "0.1.9") (lit "2025-12-13") [] []
               [(lit "Added", [lit "plain"; lit "**Auth module** added"])])
  = lit "Auth module"
  /\ get_title (mkRelease (lit "0.1.9") (lit "2025-12-13") [] []
                  [(lit "Added", [lit "plain"; lit "**a*b** no span"])])
     = lit "plain"
  /\ get_title (mkRelease (lit "0.1.9") (lit "2025-12-13") [] []
                  [(lit "Fixed", [lit "**bold**"]); (lit "Added", [])])
     = lit "Version " ++ lit "0.1.9".
Proof.
  split; [|split].
  - apply (proj1 (get_title_rules _) [lit "plain"]
             (lit "**Auth module** added") [] (lit "Auth module")).
    + reflexivity.
    + intros x t [<-|[]] H. apply bold_of_spec in H. discriminate H.
    + apply bold_of_spec. reflexivity.
  - apply (proj1 (proj2 (get_title_rules _)) (lit "plain")
             [lit "**a*b** no span"]).
    + reflexivity.
    + intros x t [<-|[<-|[]]] H; apply bold_of_spec in H; discriminate H.
  - exact (proj2 (proj2 (get_title_rules
             (mkRelease (lit "0.1.9") (lit "2025-12-13") [] []
                [(lit "Fixed", [lit "**bold**"]); (lit "Added", [])])))
             (or_intror eq_refl)).
Defined.

(** ** The tags *)

(** C3.  The tags of a record are, in this order: (new, New) when a section
    [Added] exists; (feature, Changed) when [Changed] exists; (fix, Fixed)
    when [Fixed] exists; (breaking, Breaking) when [Breaking] exists or
    BREAKING occurs in the dump of the sections; then at most one topic tag
    of kind feature, that of the first group of keywords, in the priority
    order of the table, one of which occurs in the lowercased dump; and of
    this sequence the first four entries are kept, so a record has from 0
    to 4 tags. *)
Theorem get_tags_priority (r : release) :
  get_tags r = firstn 4 (tags_in_order (sections r))
  /\ length (get_tags r) <= 4
  /\ length (tags_in_order (sections r)) <= 5.
Proof.
  assert (E : get_tags r = firstn 4 (tags_in_order (sections r))).
  { unfold get_tags, tags_in_order, has_section, topic_of, topic_table.
    rewrite !mem_keys.
    set (dump := Py.repr_dict (sections r)).
    set (content := Py.lower dump).
    cbn [find existsb option_map fst snd].
    set (hA := existsb (Dict.str_eqb (lit "Added")) _).
    set (hC := existsb (Dict.str_eqb (lit "Changed")) _).
    set (hF := existsb (Dict.str_eqb (lit "Fixed")) _).
    set (hB := existsb (Dict.str_eqb (lit "Breaking")) _).
    set (bB := Py.contains (lit "BREAKING") dump).
    set (b1 := Py.contains (lit "auth") content).
    set (b2 := Py.contains (lit "resilience") content).
    set (b3 := Py.contains (lit "circuit") content).
    set (b4 := Py.contains (lit "retry") content).
    set (b5 := Py.contains (lit "cqrs") content).
    set (b6 := Py.contains (lit "event") content).
    set (b7 := Py.contains (lit "mcp") content).
    set (b8 := Py.contains (lit "grpc") content).
    set (b9 := Py.contains (lit "graphql") content).
    set (b10 := Py.contains (lit "protocol") content).
    set (b11 := Py.contains (lit "shutdown") content).
    set (b12 := Py.contains (lit "security") content).
    clearbody hA hC hF hB bB b1 b2 b3 b4 b5 b6 b7 b8 b9 b10 b11 b12.
    clear dump content.
    destruct hA, hC, hF, hB, bB; cbn [orb app];
      (destruct b1; [reflexivity|]); (destruct b2; [reflexivity|]);
      (destruct b3; [reflexivity|]); (destruct b4; [reflexivity|]);
      (destruct b5; [reflexivity|]); (destruct b6; [reflexivity|]);
      (destruct b7; [reflexivity|]); (destruct b8; [reflexivity|]);
      (destruct b9; [reflexivity|]); (destruct b10; [reflexivity|]);
      (destruct b11; [reflexivity|]); destruct b12; reflexivity. }
  split; [exact E|]. split.
  - rewrite E. apply firstn_le_length.
  - unfold tags_in_order.
    repeat match goal with
           | |- context [if ?b then _ else _] => destruct b
           end;
      destruct (topic_of (Py.lower (Py.repr_dict (sections r)))); simpl; lia.
Qed.

(** ** Sections with no item *)

(** The cut to four entries, for the proofs that follow. *)
Lemma get_tags_cut (r : release) :
  get_tags r = firstn 4 (tags_in_order (sections r)).
Proof.
  unfold get_tags, tags_in_order, has_section, topic_of, topic_table.
  rewrite !mem_keys.
  set (dump := Py.repr_dict (sections r)).
  set (content := Py.lower dump).
  cbn [find existsb option_map fst snd].
  set (hA := existsb (Dict.str_eqb (lit "Added")) _).
  set (hC := existsb (Dict.str_eqb (lit "Changed")) _).
  set (hF := existsb (Dict.str_eqb (lit "Fixed")) _).
  set (hB := existsb (Dict.str_eqb (lit "Breaking")) _).
  set (bB := Py.contains (lit "BREAKING") dump).
  set (b1 := Py.contains (lit "auth") content).
  set (b2 := Py.contains (lit "resilience") content).
  set (b3 := Py.contains (lit "circuit") content).
  set (b4 := Py.contains (lit "retry") content).
  set (b5 := Py.contains (lit "cqrs") content).
  set (b6 := Py.contains (lit "event") content).
  set (b7 := Py.contains (lit "mcp") content).
  set (b8 := Py.contains (lit "grpc") content).
  set (b9 := Py.contains (lit "graphql") content).
  set (b10 := Py.contains (lit "protocol") content).
  set (b11 := Py.contains (lit "shutdown") content).
  set (b12 := Py.contains (lit "security") content).
  clearbody hA hC hF hB bB b1 b2 b3 b4 b5 b6 b7 b8 b9 b10 b11 b12.
  clear dump content.
  destruct hA, hC, hF, hB, bB; cbn [orb app];
    (destruct b1; [reflexivity|]); (destruct b2; [reflexivity|]);
    (destruct b3; [reflexivity|]); (destruct b4; [reflexivity|]);
    (destruct b5; [reflexivity|]); (destruct b6; [reflexivity|]);
    (destruct b7; [reflexivity|]); (destruct b8; [reflexivity|]);
    (destruct b9; [reflexivity|]); (destruct b10; [reflexivity|]);
    (destruct b11; [reflexivity|]); destruct b12; reflexivity.
Qed.


(** The loop of the renderer writes the blocks of the sections that have an
    item, in the order of the dictionary, and nothing for the others. *)
Lemma sections_loop_blocks (secs : Dict.t (list str)) (acc : str) :
  sections_loop secs acc
  = acc ++ concat (map block_of (rendered_sections secs)).
Proof.
  revert acc. induction secs as [|[name items] secs IH]; intros acc; simpl.
  - now rewrite app_nil_r.
  - destruct items as [|item items]; simpl; [apply IH|].
    rewrite IH. unfold block_of at 2; simpl. now rewrite <- app_assoc.
Qed.

Lemma rendered_sections_In (secs : Dict.t (list str)) name items :
  In (name, items) (rendered_sections secs)
  <-> In (name, items) secs /\ items <> [].
Proof.
  unfold rendered_sections. rewrite filter_In. simpl. split.
  - intros [H1 H2]. split; [exact H1|]. destruct items; discriminate.
  - intros [H1 H2]. split; [exact H1|].
    destruct items; [congruence | reflexivity].
Qed.

Lemma has_section_get (name : str) (secs : Dict.t (list str)) items :
  Dict.get name secs = Some items -> has_section name secs = true.
Proof.
  intros H. unfold has_section. rewrite <- mem_keys.
  unfold Dict.mem. now rewrite H.
Qed.

(** The tag of a breaking change comes fourth at the latest, so the cut to
    four tags keeps it. *)
Lemma breaking_tag_kept (secs : Dict.t (list str)) :
  has_section (lit "Breaking") secs = true ->
  In (lit "breaking", lit "Breaking") (firstn 4 (tags_in_order secs)).
Proof.
  intros H. unfold tags_in_order. rewrite H. cbn [orb].
  destruct (has_section (lit "Added") secs),
    (has_section (lit "Changed") secs), (has_section (lit "Fixed") secs);
    cbn [app firstn In]; tauto.
Qed.

(** C5.  A record whose section [Breaking] exists and has no item gets the
    tag (breaking, Breaking), since the tag looks at the key only; yet the
    page of the record has no block for [Breaking]: the blocks written are
    those of the sections that have an item, [Breaking] is none of them, and
    a section with no item stays a key of the record all the same. *)
Theorem empty_breaking_tagged_not_rendered
        (strftime_Y : Z -> str) (r : release) :
  NoDup (Dict.keys (sections r)) ->
  Dict.get (lit "Breaking") (sections r) = Some [] ->
  In (lit "breaking", lit "Breaking") (get_tags r)
  /\ generate_release_html strftime_Y r
     = release_fragment (version r) (format_date strftime_Y (date r))
         (get_title r)
         (Py.join (lit "
                            ") (map tag_span (get_tags r)))
         (concat (map block_of (rendered_sections (sections r))))
  /\ ~ In (lit "Breaking") (Dict.keys (rendered_sections (sections r)))
  /\ In (lit "Breaking") (Dict.keys (sections r))
  /\ (forall name items,
        In (name, items) (rendered_sections (sections r))
        <-> In (name, items) (sections r) /\ items <> []).
Proof.
  intros Hnd Hg. split; [|split; [|split; [|split]]].
  - rewrite get_tags_cut.
    apply breaking_tag_kept. eapply has_section_get; eauto.
  - unfold generate_release_html. now rewrite sections_loop_blocks.
  - intros Hin. unfold Dict.keys in Hin. apply in_map_iff in Hin.
    destruct Hin as ([name items] & Hname & Hin). cbn [fst] in Hname.
    subst name. apply rendered_sections_In in Hin as [Hin Hne].
    apply (In_get _ _ _ Hnd) in Hin. congruence.
  - apply mem_In. unfold Dict.mem. now rewrite Hg.
  - intros name items. apply rendered_sections_In.
Qed.

(** The theorem on a record with a section [Added] and an empty section
    [Breaking]. *)
Lemma empty_breaking_witness :
  let r := mkRelease (lit "2.0") (lit "2025-01-02") [] []
             [(lit "Added", [lit "one"]); (lit "Breaking", [])] in
  In (lit "breaking", lit "Breaking") (get_tags r)
  /\ ~ In (lit "Breaking") (Dict.keys (rendered_sections (sections r)))
  /\ In (lit "Breaking") (Dict.keys (sections r)).
Proof.
  intros r.
  assert (Hnd : NoDup (Dict.keys (sections r))).
  { repeat constructor; simpl; intuition discriminate. }
  pose proof (empty_breaking_tagged_not_rendered Datetime.dec4 r Hnd eq_refl)
    as (H1 & _ & H3 & H4 & _).
  auto.
Defined.

(** ** Dates *)

Section DateFacts.
Import Re ReFacts.
Local Open Scope Z_scope.

Lemma isdigit_cases (c : ascii) :
  Py.isdigit c = true -> In c (lit "0123456789").
Proof.
  destruct c as [[] [] [] [] [] [] [] []]; intros H; try discriminate H;
    cbn; repeat (first [left; reflexivity | right]).
Qed.

Ltac digits H :=
  apply isdigit_cases in H; cbn in H;
  repeat (destruct H as [<-|H]); [..|contradiction].

Ltac decide_ifs :=
  repeat match goal with
         | |- context [if ?b then _ else _] =>
             let v := eval vm_compute in b in
             first [constr_eq v true | constr_eq v false];
             change b with v; cbv iota
         end.

Lemma isdigit_not_space (c : ascii) :
  Py.isdigit c = true -> Py.isspace c = false.
Proof. intros H. digits H; reflexivity. Qed.

Lemma dval_range (c : ascii) : Py.isdigit c = true -> 0 <= dval c <= 9.
Proof. intros H. digits H; vm_compute; split; discriminate. Qed.

Lemma digit_dval (c : ascii) (n : Z) :
  Py.isdigit c = true -> n mod 10 = dval c -> Datetime.digit n = c.
Proof.
  intros H E. unfold Datetime.digit. rewrite E. digits H; reflexivity.
Qed.

Lemma first_some {A : Type} (x : option A) :
  match x with Some r => Some r | None => None end = x.
Proof. now destruct x. Qed.

(** The month field: two digits from 01 to 12. *)
Lemma run_month gs (m1 m2 : ascii) t r :
  Py.isdigit m1 = true -> Py.isdigit m2 = true ->
  run (GOpen
       :: Alt [[Datetime.only "1"; Datetime.between "0" "2"];
               [Datetime.only "0"; Datetime.between "1" "9"];
               [Datetime.between "1" "9"]]
       :: GClose :: Lit "-" :: r) false None gs (m1 :: m2 :: "-"%char :: t)
  = if (1 <=? 10 * dval m1 + dval m2) && (10 * dval m1 + dval m2 <=? 12)
    then run r false None (gs ++ [[m1; m2]]) t else None.
Proof.
  intros H1 H2. digits H1; digits H2.
  all: cbn; decide_ifs; first [reflexivity | apply first_some].
Qed.

(** The day field at the end of the text: two digits from 01 to 31 are read
    whole; of two other digits the first is read alone when it is not 0. *)
Lemma run_day gs (d1 d2 : ascii) :
  Py.isdigit d1 = true -> Py.isdigit d2 = true ->
  run [GOpen;
       Alt [[Datetime.only "3"; Datetime.between "0" "1"];
            [Datetime.between "1" "2"; Py.isdigit];
            [Datetime.only "0"; Datetime.between "1" "9"];
            [Datetime.between "1" "9"];
            [Datetime.only " "; Datetime.between "1" "9"]];
       GClose] false None gs [d1; d2]
  = if (1 <=? 10 * dval d1 + dval d2) && (10 * dval d1 + dval d2 <=? 31)
    then Some (gs ++ [[d1; d2]], [])
    else if 1 <=? dval d1 then Some (gs ++ [[d1]], [d2]) else None.
Proof. intros H1 H2. digits H1; digits H2; reflexivity. Qed.

Lemma strip2 (a b : ascii) :
  Py.isdigit a = true -> Py.isdigit b = true -> Py.strip [a; b] = [a; b].
Proof.
  intros Ha Hb. unfold Py.strip, Py.rstrip. simpl.
  rewrite (isdigit_not_space a Ha). simpl.
  now rewrite (isdigit_not_space b Hb).
Qed.

Lemma strip4 (a b c d : ascii) :
  Py.isdigit a = true -> Py.isdigit d = true ->
  Py.strip [a; b; c; d] = [a; b; c; d].
Proof.
  intros Ha Hd. unfold Py.strip, Py.rstrip. simpl.
  rewrite (isdigit_not_space a Ha). simpl.
  now rewrite (isdigit_not_space d Hd).
Qed.

Lemma int2 (a b : ascii) :
  Py.isdigit a = true -> Py.isdigit b = true ->
  Datetime.int [a; b] = 10 * dval a + dval b.
Proof.
  intros Ha Hb. unfold Datetime.int. rewrite strip2 by assumption.
  cbn [fold_left]. unfold dval. lia.
Qed.

Lemma int4 (a b c d : ascii) :
  Py.isdigit a = true -> Py.isdigit b = true -> Py.isdigit c = true ->
  Py.isdigit d = true ->
  Datetime.int [a; b; c; d]
  = 1000 * dval a + 100 * dval b + 10 * dval c + dval d.
Proof.
  intros Ha Hb Hc Hd. unfold Datetime.int. rewrite strip4 by assumption.
  cbn [fold_left]. unfold dval. lia.
Qed.

Lemma days_in_month_le (y m : Z) : Datetime.days_in_month y m <= 31.
Proof.
  unfold Datetime.days_in_month.
  repeat match goal with |- context [if ?b then _ else _] => destruct b end;
    lia.
Qed.

Lemma valid_ranges (y m d : Z) :
  Datetime.valid y m d = true -> 1 <= m <= 12 /\ 1 <= d <= 31.
Proof.
  unfold Datetime.valid. rewrite !andb_true_iff, !Z.leb_le.
  pose proof (days_in_month_le y m). lia.
Qed.

Lemma ymd_re_eq :
  Datetime.ymd_re =
  [GOpen; Cls Py.isdigit; Cls Py.isdigit; Cls Py.isdigit; Cls Py.isdigit;
   GClose; Lit "-"; GOpen;
   Alt [[Datetime.only "1"; Datetime.between "0" "2"];
        [Datetime.only "0"; Datetime.between "1" "9"];
        [Datetime.between "1" "9"]];
   GClose; Lit "-"; GOpen;
   Alt [[Datetime.only "3"; Datetime.between "0" "1"];
        [Datetime.between "1" "2"; Py.isdigit];
        [Datetime.only "0"; Datetime.between "1" "9"];
        [Datetime.between "1" "9"];
        [Datetime.only " "; Datetime.between "1" "9"]];
   GClose].
Proof. reflexivity. Qed.

(** On a date token [strptime] succeeds exactly when the fields are a
    date of the calendar. *)
Lemma strptime_token (y1 y2 y3 y4 m1 m2 d1 d2 : ascii) :
  Py.isdigit y1 = true -> Py.isdigit y2 = true -> Py.isdigit y3 = true ->
  Py.isdigit y4 = true -> Py.isdigit m1 = true -> Py.isdigit m2 = true ->
  Py.isdigit d1 = true -> Py.isdigit d2 = true ->
  Datetime.strptime
    [y1; y2; y3; y4; "-"%char; m1; m2; "-"%char; d1; d2]
  = if Datetime.valid (Datetime.int [y1; y2; y3; y4]) (Datetime.int [m1; m2])
         (Datetime.int [d1; d2])
    then Some (Datetime.mkDate (Datetime.int [y1; y2; y3; y4])
                 (Datetime.int [m1; m2]) (Datetime.int [d1; d2]))
    else None.
Proof.
  intros Hy1 Hy2 Hy3 Hy4 Hm1 Hm2 Hd1 Hd2.
  unfold Datetime.strptime, rmatch. rewrite ymd_re_eq. gopen.
  rewrite !run_cls_cons by assumption. simpl push. gclose.
  rewrite run_lit_cons. simpl push.
  rewrite run_month by assumption.
  destruct ((1 <=? 10 * dval m1 + dval m2) && (10 * dval m1 + dval m2 <=? 12))
    eqn:Em.
  - rewrite run_day by assumption.
    destruct ((1 <=? 10 * dval d1 + dval d2)
              && (10 * dval d1 + dval d2 <=? 31)) eqn:Ed.
    + reflexivity.
    + assert (V : Datetime.valid (Datetime.int [y1; y2; y3; y4])
                    (Datetime.int [m1; m2]) (Datetime.int [d1; d2]) = false).
      { destruct (Datetime.valid _ _ _) eqn:V; [|reflexivity].
        apply valid_ranges in V. rewrite (int2 d1 d2) in V by assumption.
        apply andb_false_iff in Ed. rewrite !Z.leb_gt in Ed. lia. }
      rewrite V. now destruct (1 <=? dval d1).
  - assert (V : Datetime.valid (Datetime.int [y1; y2; y3; y4])
                  (Datetime.int [m1; m2]) (Datetime.int [d1; d2]) = false).
    { destruct (Datetime.valid _ _ _) eqn:V; [|reflexivity].
      apply valid_ranges in V. rewrite (int2 m1 m2) in V by assumption.
      apply andb_false_iff in Em. rewrite !Z.leb_gt in Em. lia. }
    now rewrite V.
Qed.

Lemma dec2_int (a b : ascii) :
  Py.isdigit a = true -> Py.isdigit b = true ->
  Datetime.dec2 (Datetime.int [a; b]) = [a; b].
Proof.
  intros Ha Hb. rewrite int2 by assumption.
  pose proof (dval_range a Ha). pose proof (dval_range b Hb).
  unfold Datetime.dec2. f_equal; [|f_equal].
  - apply digit_dval; [assumption|]. Z.div_mod_to_equations. lia.
  - apply digit_dval; [assumption|]. Z.div_mod_to_equations. lia.
Qed.

Lemma dec4_int (a b c d : ascii) :
  Py.isdigit a = true -> Py.isdigit b = true -> Py.isdigit c = true ->
  Py.isdigit d = true ->
  Datetime.dec4 (Datetime.int [a; b; c; d]) = [a; b; c; d].
Proof.
  intros Ha Hb Hc Hd. rewrite int4 by assumption.
  pose proof (dval_range a Ha). pose proof (dval_range b Hb).
  pose proof (dval_range c Hc). pose proof (dval_range d Hd).
  unfold Datetime.dec4. f_equal; [|f_equal; [|f_equal; [|f_equal]]].
  - apply digit_dval; [assumption|]. Z.div_mod_to_equations. lia.
  - apply digit_dval; [assumption|]. Z.div_mod_to_equations. lia.
  - apply digit_dval; [assumption|]. Z.div_mod_to_equations. lia.
  - apply digit_dval; [assumption|]. Z.div_mod_to_equations. lia.
Qed.

Lemma eqb_zero_dval (c : ascii) :
  Py.isdigit c = true -> Ascii.eqb c "0" = (dval c =? 0).
Proof. intros H. digits H; reflexivity. Qed.

(** Four digits read as a year and printed without padding are the four
    digits without their leading zeros. *)
Lemma year_unpadded_int (a b c d : ascii) :
  Py.isdigit a = true -> Py.isdigit b = true -> Py.isdigit c = true ->
  Py.isdigit d = true ->
  1 <= Datetime.int [a; b; c; d] ->
  Datetime.year_unpadded (Datetime.int [a; b; c; d]) = drop_zeros [a; b; c; d].
Proof.
  intros Ha Hb Hc Hd. rewrite int4 by assumption. intros Hy.
  pose proof (dval_range a Ha). pose proof (dval_range b Hb).
  pose proof (dval_range c Hc). pose proof (dval_range d Hd).
  unfold drop_zeros, Datetime.year_unpadded, Datetime.dec4, Datetime.dec2.
  rewrite (eqb_zero_dval a Ha), (eqb_zero_dval b Hb), (eqb_zero_dval c Hc),
    (eqb_zero_dval d Hd).
  repeat match goal with
         | |- context [?x =? 0] => destruct (Z.eqb_spec x 0)
         | |- context [?x <? ?y] => destruct (Z.ltb_spec x y)
         end; try lia;
    repeat (f_equal; try (apply digit_dval; [assumption|];
                          Z.div_mod_to_equations; lia)).
Qed.

(** From the year 1000 on there is no zero to drop. *)
Lemma drop_zeros_year (a b c d : ascii) :
  Py.isdigit a = true -> Py.isdigit b = true -> Py.isdigit c = true ->
  Py.isdigit d = true ->
  1000 <= Datetime.int [a; b; c; d] ->
  drop_zeros [a; b; c; d] = [a; b; c; d].
Proof.
  intros Ha Hb Hc Hd. rewrite int4 by assumption. intros Hy.
  pose proof (dval_range b Hb). pose proof (dval_range c Hc).
  pose proof (dval_range d Hd).
  unfold drop_zeros. rewrite (eqb_zero_dval a Ha).
  destruct (Z.eqb_spec (dval a) 0); [lia | reflexivity].
Qed.

End DateFacts.

Lemma date_token_inv (s : str) :
  date_token s = true ->
  exists y1 y2 y3 y4 m1 m2 d1 d2,
    s = [y1; y2; y3; y4; "-"%char; m1; m2; "-"%char; d1; d2]
    /\ Py.isdigit y1 = true /\ Py.isdigit y2 = true /\ Py.isdigit y3 = true
    /\ Py.isdigit y4 = true /\ Py.isdigit m1 = true /\ Py.isdigit m2 = true
    /\ Py.isdigit d1 = true /\ Py.isdigit d2 = true.
Proof.
  intros Hd.
  destruct s as
    [|y1 [|y2 [|y3 [|y4 [|h1 [|m1 [|m2 [|h2 [|d1 [|d2 [|]]]]]]]]]]];
    try discriminate Hd.
  simpl in Hd. rewrite !andb_true_iff in Hd.
  destruct Hd as [[[[[[[[[Hy1 Hy2] Hy3] Hy4] Hh1] Hm1] Hm2] Hh2] Hd1] Hd2].
  apply Ascii.eqb_eq in Hh1, Hh2; subst h1 h2.
  exists y1, y2, y3, y4, m1, m2, d1, d2. repeat split; assumption.
Qed.

(** On a date token [format_date] writes the month by its name, the two
    digits of the day and the year as the platform prints it, when the
    token is a date of the calendar; the token itself when it is not. *)
Lemma format_date_on_token (strftime_Y : Z -> str) (s : str) :
  date_token s = true ->
  format_date strftime_Y s =
  if Datetime.valid (token_year s) (token_month s) (token_day s)
  then Datetime.month_name (token_month s) ++ lit " " ++ skipn 8 s
       ++ lit ", " ++ strftime_Y (token_year s)
  else s.
Proof.
  intros Hs.
  destruct (date_token_inv s Hs)
    as (y1 & y2 & y3 & y4 & m1 & m2 & d1 & d2 & -> & Hy1 & Hy2 & Hy3 & Hy4
        & Hm1 & Hm2 & Hd1 & Hd2).
  unfold format_date, token_year, token_month, token_day.
  rewrite strptime_token by assumption. cbn [firstn skipn].
  destruct (Datetime.valid _ _ _); [|reflexivity].
  unfold Datetime.strftime. cbn [Datetime.year Datetime.month Datetime.day].
  now rewrite dec2_int by assumption.
Qed.

(** C6, as the code has it.  With [%Y] printed as the GNU C library does,
    [format_date] returns, on a date token that is a date of the calendar,
    the name of the month, the two digits of the day, a comma and the year
    without its leading zeros; on a date token that is no date of the
    calendar, the token itself.  From the year 1000 on the year is the
    first four characters of the token.  Whenever the parse fails, whatever
    the text and the platform, the text comes back as it is and nothing is
    raised. *)
Theorem format_date_year_unpadded :
  (forall s,
     date_token s = true ->
     format_date Datetime.year_unpadded s =
     if Datetime.valid (token_year s) (token_month s) (token_day s)
     then Datetime.month_name (token_month s) ++ lit " " ++ skipn 8 s
          ++ lit ", " ++ drop_zeros (firstn 4 s)
     else s)
  /\ (forall s,
        date_token s = true ->
        Datetime.valid (token_year s) (token_month s) (token_day s) = true ->
        (1000 <= token_year s)%Z ->
        format_date Datetime.year_unpadded s =
        Datetime.month_name (token_month s) ++ lit " " ++ skipn 8 s
        ++ lit ", " ++ firstn 4 s)
  /\ (forall strftime_Y s,
        Datetime.strptime s = None -> format_date strftime_Y s = s)
  /\ format_date Datetime.year_unpadded (lit "2025-12-13")
     = lit "December 13, 2025"
  /\ format_date Datetime.year_unpadded (lit "2025-13-45") = lit "2025-13-45"
  /\ format_date Datetime.year_unpadded (lit "0999-01-01")
     = lit "January 01, 999".
Proof.
  assert (H1 : forall s,
             date_token s = true ->
             format_date Datetime.year_unpadded s =
             if Datetime.valid (token_year s) (token_month s) (token_day s)
             then Datetime.month_name (token_month s) ++ lit " " ++ skipn 8 s
                  ++ lit ", " ++ drop_zeros (firstn 4 s)
             else s).
  { intros s Hs. rewrite (format_date_on_token _ s Hs).
    destruct (Datetime.valid _ _ _) eqn:Hv; [|reflexivity].
    destruct (date_token_inv s Hs)
      as (y1 & y2 & y3 & y4 & m1 & m2 & d1 & d2 & -> & Hy1 & Hy2 & Hy3 & Hy4
          & Hm1 & Hm2 & Hd1 & Hd2).
    unfold token_year in *. cbn [firstn skipn] in *.
    rewrite year_unpadded_int; [reflexivity|assumption..|].
    unfold Datetime.valid in Hv. rewrite !andb_true_iff, !Z.leb_le in Hv.
    lia. }
  split; [exact H1|]. split; [|split; [|repeat split]].
  - intros s Hs Hv Hy. rewrite (H1 s Hs), Hv.
    destruct (date_token_inv s Hs)
      as (y1 & y2 & y3 & y4 & m1 & m2 & d1 & d2 & -> & Hy1 & Hy2 & Hy3 & Hy4
          & Hm1 & Hm2 & Hd1 & Hd2).
    unfold token_year in *. cbn [firstn skipn] in *.
    now rewrite drop_zeros_year by assumption.
  - intros strftime_Y s Hs. unfold format_date. now rewrite Hs.
Qed.

(** The theorem at work: a leap day before the year 1000, one after it,
    and the same day in a year that has none. *)
Lemma format_date_year_unpadded_witness :
  format_date Datetime.year_unpadded (lit "0996-02-29")
  = lit "February 29, 996"
  /\ format_date Datetime.year_unpadded (lit "2024-02-29")
     = lit "February 29, 2024"
  /\ format_date Datetime.year_unpadded (lit "2023-02-29") = lit "2023-02-29".
Proof.
  pose proof format_date_year_unpadded as (H1 & H2 & H3 & _).
  assert (Hy : (1000 <= token_year (lit "2024-02-29"))%Z)
    by (vm_compute; discriminate).
  split; [|split].
  - exact (H1 (lit "0996-02-29") eq_refl).
  - exact (H2 (lit "2024-02-29") eq_refl eq_refl Hy).
  - exact (H3 Datetime.year_unpadded (lit "2023-02-29") eq_refl).
Defined.

(** The year does not always come on four digits: the token [0999-01-01]
    is a date of the calendar, and its year is printed [999]. *)
Lemma format_date_year_999 :
  date_token (lit "0999-01-01") = true
  /\ Datetime.strptime (lit "0999-01-01") = Some (Datetime.mkDate 999 1 1)
  /\ format_date Datetime.year_unpadded (lit "0999-01-01")
     = lit "January 01, 999"
  /\ firstn 4 (lit "0999-01-01") = lit "0999".
Proof. vm_compute. repeat split. Qed.

(** ** Escaping *)

Lemma replace_char (c : ascii) (new s : str) :
  Py.replace [c] new s
  = flat_map (fun x => if Ascii.eqb x c then new else [x]) s.
Proof.
  unfold Py.replace. induction s as [|x s IH]; simpl; [reflexivity|].
  rewrite (Ascii.eqb_sym c x), andb_true_r.
  destruct (Ascii.eqb x c); now rewrite IH.
Qed.

Lemma flat_map_flat_map {A B C : Type} (f : A -> list B) (g : B -> list C)
      (l : list A) :
  flat_map g (flat_map f l) = flat_map (fun x => flat_map g (f x)) l.
Proof.
  induction l as [|x l IH]; simpl; [reflexivity|].
  now rewrite flat_map_app, IH.
Qed.

(** The three replacements in a row are one pass over the text that writes
    each of the three characters as its entity: the ampersand goes first, so
    the ampersands of the entities written later are not escaped again. *)
Lemma escape_html_chars (text : str) :
  escape_html text = flat_map escape_char text.
Proof.
  unfold escape_html.
  change (lit ">") with [">"%char]. change (lit "<") with ["<"%char].
  change (lit "&") with ["&"%char].
  rewrite !replace_char, !flat_map_flat_map.
  apply flat_map_ext. intros c. unfold escape_char. cbv beta.
  destruct (Ascii.eqb_spec c "&"); [subst; reflexivity|].
  cbn [flat_map app].
  destruct (Ascii.eqb_spec c "<"); [subst; reflexivity|].
  cbn [flat_map app].
  destruct (Ascii.eqb_spec c ">"); [subst; reflexivity | reflexivity].
Qed.

(** ** Inline markup *)

Lemma sub_from_absent (c : ascii) (r : Re.pattern) repl (bol : bool) (s : str) :
  ~ In c s -> Re.sub_from (Re.Lit c :: r) repl 0 bol s = s.
Proof.
  revert bol. induction s as [|x s IH]; intros bol Hc; [reflexivity|].
  cbn [Re.sub_from Re.run].
  destruct (Ascii.eqb_spec x c) as [->|Hx]; [exfalso; apply Hc; now left|].
  f_equal. apply IH. intros H. apply Hc. now right.
Qed.

(** An item with no star, no backquote and no opening bracket holds no
    markup, and comes out of the conversion as it went in: its ampersands
    and angle brackets are not escaped. *)
Lemma format_item_plain (item : str) :
  ~ In "*"%char item -> ~ In "`"%char item -> ~ In "["%char item ->
  format_item item = item.
Proof.
  intros H1 H2 H3. unfold format_item, Re.sub.
  change bold_re with (Re.Lit "*" :: tl bold_re).
  change code_re with (Re.Lit "`" :: tl code_re).
  change link_re with (Re.Lit "[" :: tl link_re).
  rewrite (sub_from_absent "*" _ _ _ item H1).
  rewrite (sub_from_absent "`" _ _ _ item H2).
  now rewrite (sub_from_absent "[" _ _ _ item H3).
Qed.

(** *** One span of markup *)

Section Markup.
Import Re ReFacts.

Lemma sub_from_skip (r : pattern) repl (k : nat) (s : str) :
  sub_from r repl k false s = sub_from r repl 0 false (skipn k s).
Proof.
  revert k. induction s as [|c s IH]; intros [|k]; try reflexivity.
  simpl sub_from at 1. simpl skipn. apply IH.
Qed.

(** Where the pattern matches, the replacement is written and the scan goes
    on after the match. *)
Lemma sub_from_hit (r : pattern) repl (bol : bool) (p rest : str) gs :
  p <> [] -> run r bol None [] (p ++ rest) = Some (gs, rest) ->
  sub_from r repl 0 bol (p ++ rest)
  = repl (gs, rest) ++ sub_from r repl 0 false rest.
Proof.
  intros Hp Hrun. destruct p as [|c p]; [congruence|].
  simpl app in *. cbn [sub_from]. rewrite Hrun. cbn [snd]. f_equal.
  rewrite sub_from_skip. f_equal.
  replace (length (c :: p ++ rest) - length rest - 1) with (length p)
    by (change (length (c :: p ++ rest)) with (S (length (p ++ rest)));
        rewrite length_app; lia).
  now rewrite skipn_app, Nat.sub_diag, skipn_all.
Qed.

(** Before the first character the pattern can start on, the text is
    copied. *)
Lemma sub_from_copy (c : ascii) (r : pattern) repl (bol : bool) (pre s : str) :
  ~ In c pre -> pre <> [] ->
  sub_from (Lit c :: r) repl 0 bol (pre ++ s)
  = pre ++ sub_from (Lit c :: r) repl 0 false s.
Proof.
  revert bol. induction pre as [|x pre IH]; intros bol Hc Hne; [congruence|].
  simpl app. cbn [sub_from run].
  destruct (Ascii.eqb_spec x c) as [->|Hx]; [exfalso; apply Hc; now left|].
  f_equal. destruct pre as [|y pre]; [reflexivity|].
  apply IH; [|discriminate]. intros H. apply Hc. now right.
Qed.

Lemma sub_from_copy' (c : ascii) (r : pattern) repl (pre s : str) :
  ~ In c pre ->
  sub_from (Lit c :: r) repl 0 false (pre ++ s)
  = pre ++ sub_from (Lit c :: r) repl 0 false s.
Proof.
  intros Hc. destruct pre as [|x pre]; [reflexivity|].
  apply sub_from_copy; [exact Hc | discriminate].
Qed.

(** A span: the opening character, a non-empty run free of the character
    [c], then [c]; the run is the next group. *)
Lemma run_span (o1 c : ascii) (k : pattern) (bol : bool) gs
      (inner rest : str) :
  inner <> [] -> ~ In c inner ->
  run (Lit o1 :: GOpen :: Many1 (isnot c) :: GClose :: Lit c :: k) bol
      None gs (o1 :: inner ++ c :: rest)
  = run k false None (gs ++ [inner]) rest.
Proof.
  intros Hne Hc. rewrite run_lit_cons. gopen.
  rewrite run_many1 by (apply fails_on_close, fails_on_lit).
  rewrite span_app; [|now apply isnot_Forall|].
  - rewrite firstn_app, Nat.sub_diag, firstn_all, app_nil_r.
    rewrite skipn_app, Nat.sub_diag, skipn_all. simpl skipn. simpl app at 1.
    destruct (length inner) eqn:Hl;
      [destruct inner; [congruence | discriminate]|].
    simpl push. gclose. now rewrite run_lit_cons.
  - unfold isnot. now rewrite Ascii.eqb_refl.
Qed.

Lemma run_bold (bol : bool) (inner rest : str) :
  inner <> [] -> ~ In "*"%char inner ->
  run bold_re bol None [] ((lit "**" ++ inner ++ lit "**") ++ rest)
  = Some ([inner], rest).
Proof.
  intros Hne Hc. rewrite bold_re_eq.
  change ((lit "**" ++ inner ++ lit "**") ++ rest)
    with ("*"%char :: "*"%char :: (inner ++ lit "**") ++ rest).
  rewrite run_lit_cons, <- app_assoc.
  change (lit "**" ++ rest) with ("*"%char :: "*"%char :: rest).
  rewrite run_span by assumption. now rewrite run_lit_cons.
Qed.

Lemma run_code (bol : bool) (inner rest : str) :
  inner <> [] -> ~ In "`"%char inner ->
  run code_re bol None [] ((lit "`" ++ inner ++ lit "`") ++ rest)
  = Some ([inner], rest).
Proof.
  intros Hne Hc.
  change code_re
    with [Lit "`"; GOpen; Many1 (isnot "`"); GClose; Lit "`"].
  change ((lit "`" ++ inner ++ lit "`") ++ rest)
    with ("`"%char :: (inner ++ lit "`") ++ rest).
  rewrite <- app_assoc. change (lit "`" ++ rest) with ("`"%char :: rest).
  now rewrite run_span by assumption.
Qed.

Lemma run_link (bol : bool) (label target rest : str) :
  label <> [] -> ~ In "]"%char label ->
  target <> [] -> ~ In ")"%char target ->
  run link_re bol None []
      ((lit "[" ++ label ++ lit "](" ++ target ++ lit ")") ++ rest)
  = Some ([label; target], rest).
Proof.
  intros Hl Hlc Ht Htc.
  change link_re
    with [Lit "["; GOpen; Many1 (isnot "]"); GClose; Lit "]";
          Lit "("; GOpen; Many1 (isnot ")"); GClose; Lit ")"].
  change ((lit "[" ++ label ++ lit "](" ++ target ++ lit ")") ++ rest)
    with ("["%char :: (label ++ lit "](" ++ target ++ lit ")") ++ rest).
  rewrite <- !app_assoc.
  change (lit "](" ++ target ++ lit ")" ++ rest)
    with ("]"%char :: "("%char :: target ++ ")"%char :: rest).
  rewrite run_span by assumption.
  now rewrite run_span by assumption.
Qed.

(** A text with one span the pattern matches, and no other character the
    pattern can start on: the text before and after the span is copied, the
    span is replaced. *)
Lemma sub_one (c : ascii) (r : pattern) repl (pre p post : str) gs :
  ~ In c pre -> p <> [] -> ~ In c post ->
  (forall bol, run (Lit c :: r) bol None [] (p ++ post) = Some (gs, post)) ->
  sub (Lit c :: r) repl (pre ++ p ++ post) = pre ++ repl (gs, post) ++ post.
Proof.
  intros Hpre Hp Hpost Hrun. unfold sub.
  destruct pre as [|x pre].
  - simpl app. rewrite (sub_from_hit _ _ _ _ _ gs Hp (Hrun true)).
    now rewrite sub_from_absent.
  - rewrite sub_from_copy by (try assumption; discriminate).
    rewrite (sub_from_hit _ _ _ _ _ gs Hp (Hrun false)).
    now rewrite sub_from_absent.
Qed.

Ltac notin :=
  let H := fresh in
  intros H; repeat (apply in_app_or in H; destruct H as [H|H]);
  try contradiction; simpl in H; intuition discriminate.

(** Bold to strong. *)
Lemma format_item_bold (pre inner post : str) :
  plain pre -> plain inner -> inner <> [] -> plain post ->
  format_item (pre ++ (lit "**" ++ inner ++ lit "**") ++ post)
  = pre ++ (lit "<strong>" ++ inner ++ lit "</strong>") ++ post.
Proof.
  intros (A1 & A2 & A3) (B1 & B2 & B3) Hne (C1 & C2 & C3).
  unfold format_item.
  change bold_re with (Lit "*" :: tl bold_re).
  rewrite (sub_one "*" _ _ pre _ post [inner]); try assumption.
  - cbn [group fst Nat.sub nth]. unfold sub.
    change code_re with (Lit "`" :: tl code_re).
    change link_re with (Lit "[" :: tl link_re).
    rewrite (sub_from_absent "`") by notin.
    now rewrite (sub_from_absent "[") by notin.
  - discriminate.
  - intros bol. now apply run_bold.
Qed.

(** Backquotes to inline code. *)
Lemma format_item_code (pre inner post : str) :
  plain pre -> plain inner -> inner <> [] -> plain post ->
  format_item (pre ++ (lit "`" ++ inner ++ lit "`") ++ post)
  = pre ++ (html "<code class=`code-inline`>" ++ inner ++ lit "</code>")
    ++ post.
Proof.
  intros (A1 & A2 & A3) (B1 & B2 & B3) Hne (C1 & C2 & C3).
  unfold format_item.
  change bold_re with (Lit "*" :: tl bold_re).
  unfold sub at 3. rewrite (sub_from_absent "*") by notin.
  change code_re with (Lit "`" :: tl code_re).
  rewrite (sub_one "`" _ _ pre _ post [inner]); try assumption.
  - cbn [group fst Nat.sub nth]. unfold sub.
    change link_re with (Lit "[" :: tl link_re).
    now rewrite (sub_from_absent "[") by notin.
  - discriminate.
  - intros bol. now apply run_code.
Qed.

(** Links to anchors. *)
Lemma format_item_link (pre label target post : str) :
  plain pre -> plain label -> label <> [] -> ~ In "]"%char label ->
  plain target -> target <> [] -> ~ In ")"%char target -> plain post ->
  format_item (pre ++ (lit "[" ++ label ++ lit "](" ++ target ++ lit ")")
               ++ post)
  = pre ++ (html "<a href=`" ++ target ++ html "`>" ++ label ++ lit "</a>")
    ++ post.
Proof.
  intros (A1 & A2 & A3) (B1 & B2 & B3) Hl Hlc (T1 & T2 & T3) Ht Htc
         (C1 & C2 & C3).
  unfold format_item.
  change bold_re with (Lit "*" :: tl bold_re).
  unfold sub at 3. rewrite (sub_from_absent "*") by notin.
  change code_re with (Lit "`" :: tl code_re).
  unfold sub at 2. rewrite (sub_from_absent "`") by notin.
  change link_re with (Lit "[" :: tl link_re).
  rewrite (sub_one "[" _ _ pre _ post [label; target]); try assumption.
  - reflexivity.
  - discriminate.
  - intros bol. now apply run_link.
Qed.

End Markup.

(** ** The page of a release *)

Lemma occurs_in_app_r (p a b : str) : occurs_in p b -> occurs_in p (a ++ b).
Proof.
  intros (pre & post & ->). exists (a ++ pre), post.
  now rewrite <- app_assoc.
Qed.

Lemma occurs_in_app_l (p a b : str) : occurs_in p a -> occurs_in p (a ++ b).
Proof.
  intros (pre & post & ->). exists pre, (post ++ b).
  now rewrite <- !app_assoc.
Qed.

Lemma occurs_in_concat (p x : str) (l : list str) :
  In x l -> occurs_in p x -> occurs_in p (concat l).
Proof.
  intros Hin Hp. induction l as [|y l IH]; simpl; [contradiction|].
  destruct Hin as [->|Hin].
  - now apply occurs_in_app_l.
  - apply occurs_in_app_r. now apply IH.
Qed.

Lemma occurs_in_join (p sep x : str) (l : list str) :
  In x l -> occurs_in p x -> occurs_in p (Py.join sep l).
Proof.
  intros Hin Hp. induction l as [|y l IH]; [contradiction|].
  destruct l as [|z l].
  - destruct Hin as [->|[]]. exact Hp.
  - change (Py.join sep (y :: z :: l)) with (y ++ sep ++ Py.join sep (z :: l)).
    destruct Hin as [->|Hin].
    + now apply occurs_in_app_l.
    + do 2 apply occurs_in_app_r. now apply IH.
Qed.

(** The heading of a section block holds the escaped name. *)
Lemma section_block_name (name : str) (items : list str) :
  occurs_in (html "<h3 class=`section-title`>" ++ escape_html name ++ lit "</h3>")
            (section_block name items).
Proof.
  unfold section_block.
  exists (html "
                        <div class=`section`>
                            "),
         (html "
                            <ul>
                                "
          ++ Py.join (lit "
                                ") (map item_li (firstn 10 items))
          ++ html "
                            </ul>
                        </div>
").
  change (html "
                        <div class=`section`>
                            <h3 class=`section-title`>")
    with (html "
                        <div class=`section`>
                            " ++ html "<h3 class=`section-title`>").
  change (html "</h3>
                            <ul>
                                ")
    with (lit "</h3>" ++ html "
                            <ul>
                                ").
  now rewrite <- !app_assoc.
Qed.

(** The list of a section block holds each of its first ten items, as the
    inline conversion leaves it. *)
Lemma section_block_item (name : str) (items : list str) (item : str) :
  In item (firstn 10 items) ->
  occurs_in (lit "<li>" ++ format_item item ++ lit "</li>")
            (section_block name items).
Proof.
  intros Hin. unfold section_block.
  apply occurs_in_app_r, occurs_in_app_r, occurs_in_app_r, occurs_in_app_l.
  apply occurs_in_join with (x := item_li item).
  - now apply in_map.
  - exists [], []. now rewrite app_nil_r.
Qed.

(** The heading of the page of a release holds the escaped title. *)
Lemma release_fragment_title (version date title tags_html sections_html : str) :
  occurs_in (html "<h2 class=`release-title`>" ++ escape_html title ++ lit "</h2>")
            (release_fragment version date title tags_html sections_html).
Proof.
  unfold release_fragment.
  do 6 apply occurs_in_app_r.
  exists (html "</div>
                    </div>
                    <div class=`release-content`>
                        "),
         (html "
                        <div class=`release-tags`>
                            " ++ tags_html
          ++ html "
                        </div>
" ++ sections_html ++ html "
                    </div>
                </div>
").
  change (html "</div>
                    </div>
                    <div class=`release-content`>
                        <h2 class=`release-title`>")
    with (html "</div>
                    </div>
                    <div class=`release-content`>
                        " ++ html "<h2 class=`release-title`>").
  change (html "</h2>
                        <div class=`release-tags`>
                            ")
    with (lit "</h2>" ++ html "
                        <div class=`release-tags`>
                            ").
  now rewrite <- !app_assoc.
Qed.

Lemma release_fragment_sections (p version date title tags_html sections_html : str) :
  occurs_in p sections_html ->
  occurs_in p (release_fragment version date title tags_html sections_html).
Proof.
  intros H. unfold release_fragment.
  do 11 apply occurs_in_app_r. now apply occurs_in_app_l.
Qed.

(** C8.  In the page of a release the title and the name of each section
    that is written are escaped: the ampersand, then the less-than sign,
    then the greater-than sign are replaced by their entities, which amounts
    to writing each of the three characters as its entity.  The items are
    passed through the inline conversion only (bold to strong, backquotes to
    inline code, links to anchors), which escapes nothing: an item with no
    markup is written as it is, ampersands and angle brackets included, and
    in an item with one span of markup only the span is rewritten. *)
Theorem title_and_names_escaped_items_not
        (strftime_Y : Z -> str) (r : release) :
  (forall text, escape_html text = flat_map escape_char text)
  /\ occurs_in (html "<h2 class=`release-title`>"
                ++ flat_map escape_char (get_title r) ++ lit "</h2>")
               (generate_release_html strftime_Y r)
  /\ (forall name items,
        In (name, items) (sections r) -> items <> [] ->
        occurs_in (html "<h3 class=`section-title`>"
                   ++ flat_map escape_char name ++ lit "</h3>")
                  (generate_release_html strftime_Y r))
  /\ (forall name items item,
        In (name, items) (sections r) -> In item (firstn 10 items) ->
        occurs_in (lit "<li>" ++ format_item item ++ lit "</li>")
                  (generate_release_html strftime_Y r))
  /\ (forall item,
        ~ In "*"%char item -> ~ In "`"%char item -> ~ In "["%char item ->
        format_item item = item)
  /\ (forall pre inner post,
        plain pre -> plain inner -> inner <> [] -> plain post ->
        format_item (pre ++ (lit "**" ++ inner ++ lit "**") ++ post)
        = pre ++ (lit "<strong>" ++ inner ++ lit "</strong>") ++ post)
  /\ (forall pre inner post,
        plain pre -> plain inner -> inner <> [] -> plain post ->
        format_item (pre ++ (lit "`" ++ inner ++ lit "`") ++ post)
        = pre ++ (html "<code class=`code-inline`>" ++ inner ++ lit "</code>")
          ++ post)
  /\ (forall pre label target post,
        plain pre -> plain label -> label <> [] -> ~ In "]"%char label ->
        plain target -> target <> [] -> ~ In ")"%char target -> plain post ->
        format_item (pre ++ (lit "[" ++ label ++ lit "](" ++ target ++ lit ")")
                     ++ post)
        = pre ++ (html "<a href=`" ++ target ++ html "`>" ++ label
                  ++ lit "</a>") ++ post)
  /\ format_item (lit "**a** `b` [c](d) x<y & z>")
     = html "<strong>a</strong> <code class=`code-inline`>b</code> <a href=`d`>c</a> x<y & z>".
Proof.
  split; [exact escape_html_chars|].
  split; [|split; [|split; [|split; [|split; [|split; [|split]]]]]].
  - rewrite <- escape_html_chars. apply release_fragment_title.
  - intros name items Hin Hne. rewrite <- escape_html_chars.
    unfold generate_release_html. rewrite sections_loop_blocks.
    apply release_fragment_sections. simpl app.
    apply occurs_in_concat with (x := block_of (name, items)).
    + apply in_map. now apply rendered_sections_In.
    + apply section_block_name.
  - intros name items item Hin Hit.
    unfold generate_release_html. rewrite sections_loop_blocks.
    apply release_fragment_sections. simpl app.
    apply occurs_in_concat with (x := block_of (name, items)).
    + apply in_map. apply rendered_sections_In. split; [exact Hin|].
      intros ->. destruct Hit.
    + now apply section_block_item.
  - exact format_item_plain.
  - exact format_item_bold.
  - exact format_item_code.
  - exact format_item_link.
  - vm_compute. reflexivity.
Qed.

(** The theorem at work: a title and a section name with an ampersand are
    written with the entity, an item with angle brackets and an ampersand is
    written as it is. *)
Lemma title_and_names_escaped_items_not_witness :
  let r := mkRelease (lit "1.0") (lit "2025-01-02") [] []
             [(lit "Q&A", [lit "a < b & c > d"]); (lit "Added", [lit "x & y"])]
  in
  occurs_in (html "<h2 class=`release-title`>"
             ++ flat_map escape_char (get_title r) ++ lit "</h2>")
            (generate_release_html Datetime.dec4 r)
  /\ get_title r = lit "x & y"
  /\ occurs_in (html "<h3 class=`section-title`>"
                ++ flat_map escape_char (lit "Q&A") ++ lit "</h3>")
               (generate_release_html Datetime.dec4 r)
  /\ flat_map escape_char (lit "Q&A") = lit "Q&amp;A"
  /\ occurs_in (lit "<li>" ++ format_item (lit "a < b & c > d") ++ lit "</li>")
               (generate_release_html Datetime.dec4 r)
  /\ format_item (lit "a < b & c > d") = lit "a < b & c > d".
Proof.
  intros r.
  destruct (title_and_names_escaped_items_not Datetime.dec4 r)
    as (_ & Ht & Hn & Hi & Hp & _ & _ & _ & _).
  split; [exact Ht|]. split; [reflexivity|]. split.
  - apply (Hn (lit "Q&A") [lit "a < b & c > d"]); [now left | discriminate].
  - split; [reflexivity|]. split.
    + apply (Hi (lit "Q&A") [lit "a < b & c > d"]); now left.
    + apply Hp; vm_compute; intuition discriminate.
Defined.

(** ** Limits of the page *)

Lemma replace_from_skip (k : nat) (old new s : str) :
  Py.replace_from k old new s = Py.replace_from 0 old new (skipn k s).
Proof.
  revert k. induction s as [|c s IH]; intros [|k]; try reflexivity.
  simpl Py.replace_from at 1. simpl skipn. apply IH.
Qed.

Lemma replace_here (old new s : str) :
  old <> [] -> Py.startswith old s = true ->
  Py.replace old new s = new ++ Py.replace old new (skipn (length old) s).
Proof.
  intros Hne Hs. unfold Py.replace.
  destruct s as [|c s]; [destruct old; [congruence | discriminate]|].
  cbn [Py.replace_from]. rewrite Hs, replace_from_skip.
  destruct old as [|o old]; [congruence|].
  replace (length (o :: old) - 1) with (length old) by (simpl; lia).
  reflexivity.
Qed.

Lemma replace_first (old new s : str) (n : nat) :
  old <> [] -> find_first old s = Some n ->
  Py.replace old new s
  = firstn n s ++ new ++ Py.replace old new (skipn (n + length old) s).
Proof.
  intros Hne. revert n. induction s as [|c s IH]; intros n; simpl find_first.
  - destruct (Py.startswith old []) eqn:E; [|discriminate].
    intros H; injection H as <-. now apply replace_here.
  - destruct (Py.startswith old (c :: s)) eqn:E.
    + intros H; injection H as <-. now apply replace_here.
    + destruct (find_first old s) as [m|] eqn:F; [|discriminate].
      intros H; injection H as <-.
      unfold Py.replace. cbn [Py.replace_from]. rewrite E.
      specialize (IH m eq_refl). unfold Py.replace in IH. rewrite IH.
      reflexivity.
Qed.

Lemma replace_absent (old new s : str) :
  find_first old s = None -> Py.replace old new s = s.
Proof.
  unfold Py.replace. induction s as [|c s IH]; simpl find_first.
  - reflexivity.
  - destruct (Py.startswith old (c :: s)) eqn:E; [discriminate|].
    destruct (find_first old s); [discriminate|]. intros _.
    cbn [Py.replace_from]. rewrite E. now rewrite IH.
Qed.

(** The template holds its placeholder once. *)
Lemma template_split :
  find_first placeholder HTML_TEMPLATE = Some template_cut
  /\ find_first placeholder template_tail = None.
Proof. vm_compute. split; reflexivity. Qed.

Lemma section_block_items (name : str) :
  exists pre post,
    forall items,
      section_block name items
      = pre ++ Py.join (lit "
                                ") (map item_li (firstn 10 items)) ++ post.
Proof.
  exists (html "
                        <div class=`section`>
                            <h3 class=`section-title`>" ++ escape_html name
          ++ html "</h3>
                            <ul>
                                "),
         (html "
                            </ul>
                        </div>
").
  intros items. unfold section_block. now rewrite <- !app_assoc.
Qed.

(** C9.  The block of a section lists its first ten items in order and no
    other: what stands before and after the list does not depend on the
    items, and the items after the tenth change nothing.  The document is
    the template with its placeholder replaced by the pages of the first
    fifteen records in order: the records after the fifteenth change
    nothing. *)
Theorem items_and_releases_capped (strftime_Y : Z -> str) :
  (forall name,
     exists pre post,
       forall items,
         section_block name items
         = pre ++ Py.join (lit "
                                ") (map item_li (firstn 10 items)) ++ post)
  /\ (forall name items,
        section_block name items = section_block name (firstn 10 items))
  /\ (forall rs,
        generate_html strftime_Y rs
        = template_head
          ++ concat (map (generate_release_html strftime_Y) (firstn 15 rs))
          ++ template_tail)
  /\ (forall rs,
        generate_html strftime_Y rs = generate_html strftime_Y (firstn 15 rs)).
Proof.
  split; [exact section_block_items|]. split; [|split].
  - intros name items. unfold section_block. rewrite firstn_firstn.
    change (Nat.min 10 10) with 10. reflexivity.
  - intros rs. unfold generate_html. fold placeholder.
    destruct template_split as [H1 H2].
    rewrite (replace_first placeholder _ HTML_TEMPLATE template_cut);
      [|discriminate|exact H1].
    fold template_head. fold template_tail.
    rewrite (replace_absent placeholder _ template_tail H2). reflexivity.
  - intros rs. unfold generate_html. rewrite firstn_firstn.
    change (Nat.min 15 15) with 15. reflexivity.
Qed.

(** * Further properties *)

(** ** Escaping *)

Lemma escape_char_safe (c x : ascii) :
  In x (escape_char c) -> x <> "<"%char /\ x <> ">"%char.
Proof.
  unfold escape_char.
  destruct (Ascii.eqb_spec c "&");
    [simpl; intuition (subst; discriminate)|].
  destruct (Ascii.eqb_spec c "<");
    [simpl; intuition (subst; discriminate)|].
  destruct (Ascii.eqb_spec c ">");
    [simpl; intuition (subst; discriminate)|].
  simpl. intros [<-|[]]. auto.
Qed.

(** X1.  Escaped text holds no angle bracket, whatever the text was; and a
    text with no ampersand and no angle bracket is left as it is. *)
Theorem escape_html_no_angle (text : str) :
  ~ In "<"%char (escape_html text)
  /\ ~ In ">"%char (escape_html text)
  /\ (~ In "&"%char text -> ~ In "<"%char text -> ~ In ">"%char text ->
      escape_html text = text).
Proof.
  rewrite escape_html_chars. split; [|split].
  - intros H. apply in_flat_map in H as (c & _ & H).
    now apply escape_char_safe in H.
  - intros H. apply in_flat_map in H as (c & _ & H).
    now apply escape_char_safe in H.
  - intros Ha Hl Hg. induction text as [|c text IH]; [reflexivity|].
    assert (Ha' : ~ In "&"%char text) by (intros H; apply Ha; now right).
    assert (Hl' : ~ In "<"%char text) by (intros H; apply Hl; now right).
    assert (Hg' : ~ In ">"%char text) by (intros H; apply Hg; now right).
    simpl. rewrite (IH Ha' Hl' Hg').
    unfold escape_char.
    destruct (Ascii.eqb_spec c "&"); [subst; exfalso; apply Ha; now left|].
    destruct (Ascii.eqb_spec c "<"); [subst; exfalso; apply Hl; now left|].
    destruct (Ascii.eqb_spec c ">"); [subst; exfalso; apply Hg; now left|].
    reflexivity.
Qed.

Lemma escape_html_no_angle_witness :
  escape_html (lit "plain text; no markup") = lit "plain text; no markup".
Proof.
  apply (proj2 (proj2 (escape_html_no_angle _)));
    vm_compute; intuition discriminate.
Defined.

Lemma escape_char_head (c : ascii) :
  exists t, escape_char c = (if Ascii.eqb c "&" then "&"%char
                             else if Ascii.eqb c "<" then "&"%char
                             else if Ascii.eqb c ">" then "&"%char else c) :: t.
Proof.
  unfold escape_char.
  destruct (Ascii.eqb c "&"); [eexists; reflexivity|].
  destruct (Ascii.eqb c "<"); [eexists; reflexivity|].
  destruct (Ascii.eqb c ">"); eexists; reflexivity.
Qed.

(** X2.  Escaping loses nothing: two texts with the same escaped form are
    the same text. *)
Theorem escape_html_injective (s t : str) :
  escape_html s = escape_html t -> s = t.
Proof.
  rewrite !escape_html_chars. revert t.
  induction s as [|a s IH]; intros [|b t] H.
  - reflexivity.
  - simpl in H. destruct (escape_char_head b) as [u E]. rewrite E in H.
    discriminate H.
  - simpl in H. destruct (escape_char_head a) as [u E]. rewrite E in H.
    discriminate H.
  - simpl in H. unfold escape_char in H.
    destruct (Ascii.eqb_spec a "&") as [->|Ha1];
      [|destruct (Ascii.eqb_spec a "<") as [->|Ha2];
        [|destruct (Ascii.eqb_spec a ">") as [->|Ha3]]];
      (destruct (Ascii.eqb_spec b "&") as [->|Hb1];
       [|destruct (Ascii.eqb_spec b "<") as [->|Hb2];
         [|destruct (Ascii.eqb_spec b ">") as [->|Hb3]]]);
      simpl in H; try discriminate H;
      try (injection H as H; f_equal; now apply IH);
      try (injection H as H0 H; congruence).
    injection H as -> H. f_equal. now apply IH.
Qed.

Lemma escape_html_injective_witness : lit "a<b&c" = lit "a<b&c".
Proof. apply (escape_html_injective _ _). reflexivity. Defined.

(** ** The parser, release by release *)

(** The records already finalized are only carried along: with more of them
    in front, a turn goes the same way. *)
Lemma step_prefix (p rs : list release) cr cs (line : str) :
  step (mkState (p ++ rs) cr cs) line =
  match step (mkState rs cr cs) line with
  | inr st' =>
      inr (mkState (p ++ releases st') (current_release st')
             (current_section st'))
  | inl e => inl e
  end.
Proof.
  unfold step, flush. cbn [releases current_release current_section].
  destruct (Re.rmatch release_re line).
  - destruct cr; cbn; now rewrite ?app_assoc.
  - destruct (Re.rmatch section_re line), cr as [r|];
      cbn [releases current_release current_section]; try reflexivity;
      (destruct (Py.startswith (lit "- ") line && _ && section_truthy cs);
       [|reflexivity]);
      try reflexivity;
      (destruct cs as [c|]; [|reflexivity]);
      now destruct (Dict.get c (sections r)).
Qed.

Lemma loop_prefix (lines : list str) (p rs : list release) cr cs :
  loop lines (mkState (p ++ rs) cr cs) =
  match loop lines (mkState rs cr cs) with
  | inr st' =>
      inr (mkState (p ++ releases st') (current_release st')
             (current_section st'))
  | inl e => inl e
  end.
Proof.
  revert rs cr cs. induction lines as [|line rest IH]; intros rs cr cs; simpl.
  - reflexivity.
  - rewrite step_prefix.
    destruct (step (mkState rs cr cs) line) as [e|[rs1 cr1 cs1]]; [reflexivity|].
    apply IH.
Qed.

Lemma step_header (st : pstate) (line v d : str) :
  header_of line = Some (v, d) ->
  step st line = inr (mkState (flush st) (Some (mkRelease v d [] [] [])) None).
Proof.
  intros Hh. pose proof (step_viewP st line) as V.
  inversion V as [v' d' Hh' E | | | |]; congruence.
Qed.

(** X3.  Releases are parsed one by one: cutting the lines just before a
    release header, the records of the whole are the records of the first
    part followed by the records of the second. *)
Theorem parse_lines_at_header (l1 : list str) (h : str) (l2 : list str) :
  header_of h <> None ->
  exists a b,
    parse_lines l1 = inr a /\ parse_lines (h :: l2) = inr b
    /\ parse_lines (l1 ++ h :: l2) = inr (a ++ b).
Proof.
  intros Hh. destruct (header_of h) as [[v d]|] eqn:Eh; [|congruence].
  unfold parse_lines.
  destruct (loop_wf l1 _ wf_init) as (st1 & E1 & _).
  rewrite (loop_app l1 _ _ _ E1), E1. simpl loop.
  rewrite !(step_header _ h v d Eh).
  set (fresh := mkRelease v d [] [] []).
  change (flush (mkState [] None None)) with (@nil release).
  destruct (loop_wf l2 (mkState [] (Some fresh) None) I) as (st2 & E2 & _).
  replace (mkState (flush st1) (Some fresh) None)
    with (mkState (flush st1 ++ []) (Some fresh) None)
    by now rewrite app_nil_r.
  rewrite loop_prefix, E2.
  exists (flush st1), (flush st2). repeat split.
  unfold flush; simpl. destruct (current_release st2); now rewrite ?app_assoc.
Qed.

Lemma parse_lines_at_header_witness :
  exists a b,
    parse_lines [lit "## [2.0] - 2025-02-03"; lit "### Added"; lit "- two"]
    = inr a
    /\ parse_lines
         (lit "## [1.0] - 2025-01-02" :: [lit "### Fixed"; lit "- one"])
       = inr b
    /\ parse_lines
         ([lit "## [2.0] - 2025-02-03"; lit "### Added"; lit "- two"]
          ++ lit "## [1.0] - 2025-01-02" :: [lit "### Fixed"; lit "- one"])
       = inr (a ++ b).
Proof. apply parse_lines_at_header. vm_compute. discriminate. Defined.

(** X4.  A line that is no release header, no section header and no list
    item is ignored wherever it stands: deleting it changes nothing. *)
Theorem parse_lines_other_line (a : list str) (l : str) (b : list str) :
  header_of l = None -> section_of l = None -> is_item l = false ->
  parse_lines (a ++ l :: b) = parse_lines (a ++ b).
Proof.
  intros Hh Hs Hi. unfold parse_lines.
  destruct (loop_wf a _ wf_init) as (st & E & _).
  rewrite !(loop_app a _ _ _ E). simpl.
  rewrite step_skip; auto.
Qed.

Lemma parse_lines_other_line_witness :
  parse_lines ([lit "## [1.0] - 2025-01-02"; lit "### Added"; lit "- one"]
               ++ lit "" :: [lit "- two"])
  = parse_lines ([lit "## [1.0] - 2025-01-02"; lit "### Added"; lit "- one"]
                 ++ [lit "- two"]).
Proof. apply parse_lines_other_line; reflexivity. Defined.

(** ** What the parser leaves in a record *)

Lemma get_mem {V : Type} (k : str) (d : Dict.t V) (v : V) :
  Dict.get k d = Some v -> Dict.mem k d = true.
Proof. unfold Dict.mem. now intros ->. Qed.

Lemma keys_set_stripped (k : str) (v : list str) (d : Dict.t (list str)) :
  stripped k -> Forall stripped (Dict.keys d) ->
  Forall stripped (Dict.keys (Dict.set k v d)).
Proof.
  intros Hk Hd. rewrite keys_set. destruct (Dict.mem k d); [exact Hd|].
  apply Forall_app. split; [exact Hd | now constructor].
Qed.

Lemma section_of_stripped (line l : str) :
  section_of line = Some l -> stripped l.
Proof.
  unfold section_of. destruct (Re.rmatch section_re line); [|discriminate].
  intros H; injection H as <-. apply strip_stripped.
Qed.

Lemma step_kept (st st' : pstate) (line : str) :
  Forall kept (flush st) -> step st line = inr st' -> Forall kept (flush st').
Proof.
  intros Hst H. pose proof (step_viewP st line) as V. rewrite H in V.
  destruct st as [rs cr cse].
  inversion V as
    [v d Hh E | r cs Hh Hs Hr E | r cs items Hh Hs Hi Hr Hc Hne Hg E
    | | Hh Hskip E]; subst; simpl in *; subst; auto.
  - unfold flush at 1; simpl. apply Forall_app; split; [exact Hst|].
    repeat constructor.
  - unfold flush in *; simpl in *.
    apply Forall_app in Hst as [Hrs Hr]. apply Forall_app; split; [exact Hrs|].
    inversion Hr as [|? ? (Ht & Hg & Hn & Hk) _]; subst.
    repeat constructor; auto; simpl.
    + now apply keys_set_NoDup.
    + apply keys_set_stripped; [|exact Hk].
      eapply section_of_stripped; eauto.
  - unfold flush in *; simpl in *.
    apply Forall_app in Hst as [Hrs Hr]. apply Forall_app; split; [exact Hrs|].
    inversion Hr as [|? ? (Ht & Hg' & Hn & Hk) _]; subst.
    repeat constructor; auto; simpl.
    + now apply keys_set_NoDup.
    + rewrite keys_set, (get_mem _ _ _ Hg). exact Hk.
Qed.

Lemma loop_kept (lines : list str) (st st' : pstate) :
  Forall kept (flush st) -> loop lines st = inr st' -> Forall kept (flush st').
Proof.
  revert st; induction lines as [|line rest IH]; intros st Hst; simpl.
  - intros H; injection H as <-; exact Hst.
  - destruct (step st line) as [e|st1] eqn:E; [discriminate|].
    apply IH. eapply step_kept; eauto.
Qed.

(** X5.  In every record the parser returns, the entries [title] and [tags]
    are still the empty string and the empty list the header put there (the
    renderer computes both when it needs them), no section name comes
    twice, and every section name is trimmed. *)
Theorem parse_changelog_record_fields (content : str) :
  exists rs,
    parse_changelog content = inr rs
    /\ Forall (fun r =>
                 title r = [] /\ tags r = []
                 /\ NoDup (Dict.keys (sections r))
                 /\ Forall stripped (Dict.keys (sections r))) rs.
Proof.
  rewrite parse_changelog_lines. unfold parse_lines.
  destruct (loop_wf (Py.split nl content) _ wf_init) as (st & E & _).
  rewrite E. exists (flush st). split; [reflexivity|].
  eapply loop_kept; [|exact E]. constructor.
Qed.

(** ** Lines and documents *)

Lemma split_line (sep : ascii) (l : str) :
  ~ In sep l -> Py.split sep l = [l].
Proof.
  induction l as [|c l IH]; intros H; simpl; [reflexivity|].
  destruct (Ascii.eqb_spec c sep); [subst; exfalso; apply H; now left|].
  rewrite IH; [reflexivity|]. intros Hin. apply H. now right.
Qed.

Lemma split_app_sep (sep : ascii) (l rest : str) :
  ~ In sep l -> Py.split sep (l ++ sep :: rest) = l :: Py.split sep rest.
Proof.
  induction l as [|c l IH]; intros H; simpl.
  - now rewrite Ascii.eqb_refl.
  - destruct (Ascii.eqb_spec c sep); [subst; exfalso; apply H; now left|].
    rewrite IH; [reflexivity|]. intros Hin. apply H. now right.
Qed.

Lemma split_join (sep : ascii) (lines : list str) :
  lines <> [] -> Forall (fun l => ~ In sep l) lines ->
  Py.split sep (Py.join [sep] lines) = lines.
Proof.
  intros Hne Hl. revert Hne.
  induction Hl as [|l ls Hl Hls IH]; intros Hne;
    [exfalso; now apply Hne|].
  destruct ls as [|l' ls].
  - simpl. now apply split_line.
  - change (Py.join [sep] (l :: l' :: ls))
      with (l ++ sep :: Py.join [sep] (l' :: ls)).
    rewrite split_app_sep by assumption. f_equal. apply IH. discriminate.
Qed.

(** X6.  The document whose lines are [lines], joined by line feeds, is
    parsed as these lines: what is proved of [parse_lines] holds of
    [parse_changelog] on the document. *)
Theorem parse_changelog_join (lines : list str) :
  lines <> [] -> Forall (fun l => ~ In nl l) lines ->
  parse_changelog (Py.join [nl] lines) = parse_lines lines.
Proof.
  intros Hne Hl. rewrite parse_changelog_lines. now rewrite split_join.
Qed.

Lemma parse_changelog_join_witness :
  parse_changelog
    (Py.join [nl] [lit "## [1.0] - 2025-01-02"; lit "### Added"; lit "- one"])
  = parse_lines [lit "## [1.0] - 2025-01-02"; lit "### Added"; lit "- one"].
Proof.
  apply parse_changelog_join; [discriminate|].
  repeat constructor; vm_compute; intuition discriminate.
Defined.

(** ** Keywords in the dump of the sections *)

Lemma contains_spec (p s : str) :
  Py.contains p s = true <-> occurs_in p s.
Proof.
  split.
  - induction s as [|c s IH]; simpl.
    + rewrite orb_false_r. intros H. apply startswith_spec in H as [t ->].
      now exists [], t.
    + intros H. apply orb_true_iff in H as [H|H].
      * apply startswith_spec in H as [t ->]. now exists [], t.
      * destruct (IH H) as (pre & post & ->). now exists (c :: pre), post.
  - intros (pre & post & ->). induction pre as [|c pre IH].
    + simpl app. destruct (p ++ post) eqn:E; simpl; rewrite <- ?E;
        now rewrite startswith_app.
    + simpl. rewrite IH. apply orb_true_r.
Qed.

Lemma occurs_in_map (f : ascii -> ascii) (p s : str) :
  occurs_in p s -> occurs_in (map f p) (map f s).
Proof.
  intros (pre & post & ->). exists (map f pre), (map f post).
  now rewrite !map_app.
Qed.

Lemma occurs_in_map_inv (f : ascii -> ascii) (q s : str) :
  occurs_in q (map f s) -> exists p, occurs_in p s /\ map f p = q.
Proof.
  intros (pre & post & E).
  apply map_eq_app in E as (a & b & -> & Ea & Eb).
  apply map_eq_app in Eb as (p & c & -> & Ep & Ec).
  exists p. split; [now exists a, c | exact Ep].
Qed.

Lemma small_letter_lower (c : ascii) :
  small_letter (Py.lower_char c) = true -> letter c = true.
Proof.
  destruct c as [[] [] [] [] [] [] [] []]; vm_compute; intros H;
    first [reflexivity | discriminate H].
Qed.

Lemma repr_char_letter (q c : ascii) :
  letter c = true -> q = "'"%char \/ q = dq -> Py.repr_char q c = [c].
Proof.
  intros Hc [-> | ->];
    destruct c as [[] [] [] [] [] [] [] []]; try discriminate Hc;
    reflexivity.
Qed.

(** A word of letters that occurs in a string occurs in its [repr]: no
    letter is escaped. *)
Lemma repr_str_word (w s : str) :
  Forall (fun c => letter c = true) w -> occurs_in w s ->
  occurs_in w (Py.repr_str s).
Proof.
  intros Hw (pre & post & ->). unfold Py.repr_str.
  set (q := if existsb _ _ && negb _ then dq else "'"%char).
  assert (Hq : q = "'"%char \/ q = dq)
    by (subst q; destruct (existsb _ _ && negb _); auto).
  clearbody q. rewrite !flat_map_app.
  replace (flat_map (Py.repr_char q) w) with w.
  - exists ([q] ++ flat_map (Py.repr_char q) pre),
           (flat_map (Py.repr_char q) post ++ [q]).
    now rewrite <- !app_assoc.
  - induction Hw as [|c w Hc Hw IH]; [reflexivity|].
    simpl. now rewrite repr_char_letter, <- IH.
Qed.

Lemma repr_list_item (p item : str) (items : list str) :
  In item items -> occurs_in p (Py.repr_str item) ->
  occurs_in p (Py.repr_list items).
Proof.
  intros Hin Hp. unfold Py.repr_list.
  apply occurs_in_app_r, occurs_in_app_l.
  apply occurs_in_join with (x := Py.repr_str item); [|exact Hp].
  now apply in_map.
Qed.

Lemma repr_dict_entry (p name : str) (items : list str)
      (secs : Dict.t (list str)) :
  In (name, items) secs ->
  occurs_in p (Py.repr_str name) \/ occurs_in p (Py.repr_list items) ->
  occurs_in p (Py.repr_dict secs).
Proof.
  intros Hin Hp. unfold Py.repr_dict.
  apply occurs_in_app_r, occurs_in_app_l.
  apply occurs_in_join
    with (x := Py.repr_str name ++ lit ": " ++ Py.repr_list items).
  - apply in_map_iff. now exists (name, items).
  - destruct Hp as [Hp|Hp].
    + now apply occurs_in_app_l.
    + now do 2 apply occurs_in_app_r.
Qed.

Lemma small_word_letters (kw w : str) :
  small_word kw = true -> Py.lower w = kw ->
  Forall (fun c => letter c = true) w.
Proof.
  intros Hk <-. unfold small_word, Py.lower in Hk.
  rewrite forallb_forall in Hk. apply Forall_forall. intros c Hc.
  apply small_letter_lower, Hk. now apply in_map.
Qed.

Lemma keyword_in_dump (secs : Dict.t (list str)) (name : str)
      (items : list str) (kw : str) :
  small_word kw = true -> In (name, items) secs ->
  occurs_in kw (Py.lower name)
  \/ (exists item, In item items /\ occurs_in kw (Py.lower item)) ->
  Py.contains kw (Py.lower (Py.repr_dict secs)) = true.
Proof.
  intros Hk Hin H. apply contains_spec.
  destruct H as [H|(item & Hit & H)];
    apply occurs_in_map_inv in H as (w & Hw & E);
    pose proof (small_word_letters kw w Hk E) as Hl;
    rewrite <- E; apply occurs_in_map;
    apply (repr_dict_entry w name items secs Hin).
  - left. now apply repr_str_word.
  - right. apply repr_list_item with (item := item); [exact Hit|].
    now apply repr_str_word.
Qed.

(** X7.  The search for a keyword sees the names of the sections and every
    item, whatever the case of the letters: a word of small letters that
    occurs in the lowercased name of a section, or in one of its lowercased
    items, occurs in the lowercased dump in which [get_tags] looks for
    it. *)
Theorem keyword_seen_in_names_and_items
        (r : release) (name : str) (items : list str) (kw : str) :
  small_word kw = true -> In (name, items) (sections r) ->
  occurs_in kw (Py.lower name)
  \/ (exists item, In item items /\ occurs_in kw (Py.lower item)) ->
  Py.contains kw (Py.lower (Py.repr_dict (sections r))) = true.
Proof. apply keyword_in_dump. Qed.

Lemma keyword_seen_witness :
  Py.contains (lit "retry")
    (Py.lower (Py.repr_dict
                 (sections
                    (mkRelease (lit "1.0") (lit "2025-01-02") [] []
                       [(lit "Changed", [lit "one"; lit "Adds RETRY budget"])]))))
  = true.
Proof.
  apply (keyword_seen_in_names_and_items _ (lit "Changed")
           [lit "one"; lit "Adds RETRY budget"]).
  - reflexivity.
  - now left.
  - right. exists (lit "Adds RETRY budget"). split; [right; now left|].
    exists (lit "adds "), (lit " budget"). reflexivity.
Defined.

Lemma topic_auth (text : str) :
  Py.contains (lit "auth") text = true ->
  topic_of text = Some (lit "Authentication").
Proof.
  intros H. unfold topic_of, topic_table. cbn [find existsb fst].
  now rewrite H.
Qed.

(** X8.  A record one of whose section names or items holds [auth], in any
    case of the letters, has the topic Authentication, which goes before
    all other topics; its tag is among the tags of the record unless the
    four tags of the sections are all there and fill the four places. *)
Theorem auth_tag (r : release) (name : str) (items : list str) :
  In (name, items) (sections r) ->
  occurs_in (lit "auth") (Py.lower name)
  \/ (exists item, In item items /\ occurs_in (lit "auth") (Py.lower item)) ->
  topic_of (Py.lower (Py.repr_dict (sections r)))
  = Some (lit "Authentication")
  /\ (has_section (lit "Added") (sections r)
      && has_section (lit "Changed") (sections r)
      && has_section (lit "Fixed") (sections r)
      && (has_section (lit "Breaking") (sections r)
          || Py.contains (lit "BREAKING") (Py.repr_dict (sections r)))
      = false ->
      In (lit "feature", lit "Authentication") (get_tags r)).
Proof.
  intros Hin H.
  assert (T : topic_of (Py.lower (Py.repr_dict (sections r)))
              = Some (lit "Authentication")).
  { apply topic_auth. eapply keyword_in_dump; eauto. }
  split; [exact T|]. intros Hfew.
  rewrite get_tags_cut. unfold tags_in_order. rewrite T.
  destruct (has_section (lit "Added") (sections r)),
    (has_section (lit "Changed") (sections r)),
    (has_section (lit "Fixed") (sections r)),
    (has_section (lit "Breaking") (sections r)
     || Py.contains (lit "BREAKING") (Py.repr_dict (sections r)));
    try discriminate Hfew; cbn [app firstn In]; tauto.
Qed.

Lemma auth_tag_witness :
  In (lit "feature", lit "Authentication")
     (get_tags (mkRelease (lit "0.1.9") (lit "2025-12-13") [] []
                  [(lit "Added", [lit "**Auth module** added"])])).
Proof.
  refine (proj2 (auth_tag
                   (mkRelease (lit "0.1.9") (lit "2025-12-13") [] []
                      [(lit "Added", [lit "**Auth module** added"])])
                   (lit "Added") [lit "**Auth module** added"] _ _) _).
  - now left.
  - right. exists (lit "**Auth module** added"). split; [now left|].
    exists (lit "**"), (lit " module** added"). reflexivity.
  - reflexivity.
Defined.

(** X9.  When the sections [Added], [Changed] and [Fixed] exist and the
    record has the tag of a breaking change, the tags are these four and
    the topic is dropped, whatever the sections hold. *)
Theorem get_tags_full (r : release) :
  has_section (lit "Added") (sections r) = true ->
  has_section (lit "Changed") (sections r) = true ->
  has_section (lit "Fixed") (sections r) = true ->
  has_section (lit "Breaking") (sections r)
  || Py.contains (lit "BREAKING") (Py.repr_dict (sections r)) = true ->
  get_tags r
  = [(lit "new", lit "New"); (lit "feature", lit "Changed");
     (lit "fix", lit "Fixed"); (lit "breaking", lit "Breaking")].
Proof.
  intros HA HC HF HB. rewrite get_tags_cut. unfold tags_in_order.
  rewrite HA, HC, HF, HB. reflexivity.
Qed.

Lemma get_tags_full_witness :
  get_tags (mkRelease (lit "1.0") (lit "2025-01-02") [] []
              [(lit "Added", [lit "auth and security"]); (lit "Changed", []);
               (lit "Fixed", []); (lit "Breaking", [])])
  = [(lit "new", lit "New"); (lit "feature", lit "Changed");
     (lit "fix", lit "Fixed"); (lit "breaking", lit "Breaking")].
Proof. apply get_tags_full; reflexivity. Defined.

Lemma topic_of_label (text label : str) :
  topic_of text = Some label -> In label (map snd topic_table).
Proof.
  unfold topic_of.
  destruct (find _ topic_table) as [g|] eqn:F; [|discriminate].
  intros H; injection H as <-. apply find_some in F as [F _].
  now apply in_map.
Qed.

(** X10.  No tag comes twice among the tags of a record. *)
Theorem get_tags_NoDup (r : release) : NoDup (get_tags r).
Proof.
  rewrite get_tags_cut. unfold tags_in_order.
  destruct (topic_of (Py.lower (Py.repr_dict (sections r)))) as [l|] eqn:T.
  - apply topic_of_label in T. cbn in T.
    destruct (has_section (lit "Added") (sections r)),
      (has_section (lit "Changed") (sections r)),
      (has_section (lit "Fixed") (sections r)),
      (has_section (lit "Breaking") (sections r)
       || Py.contains (lit "BREAKING") (Py.repr_dict (sections r)));
      repeat (destruct T as [<-|T]; [|]); try contradiction;
      cbn; repeat constructor; cbn; intuition discriminate.
  - destruct (has_section (lit "Added") (sections r)),
      (has_section (lit "Changed") (sections r)),
      (has_section (lit "Fixed") (sections r)),
      (has_section (lit "Breaking") (sections r)
       || Py.contains (lit "BREAKING") (Py.repr_dict (sections r)));
      cbn; repeat constructor; cbn; intuition discriminate.
Qed.

Lemma breaking_tag_in (secs : Dict.t (list str)) :
  has_section (lit "Breaking") secs
  || Py.contains (lit "BREAKING") (Py.repr_dict secs) = true ->
  In (lit "breaking", lit "Breaking") (firstn 4 (tags_in_order secs)).
Proof.
  intros H. unfold tags_in_order. rewrite H.
  destruct (has_section (lit "Added") secs),
    (has_section (lit "Changed") secs), (has_section (lit "Fixed") secs);
    cbn [app firstn In]; tauto.
Qed.

(** X15.  A record one of whose section names or items holds BREAKING in
    capitals has the tag of a breaking change, with or without a section
    [Breaking], and the cut to four tags never drops it. *)
Theorem breaking_word_tag (r : release) (name : str) (items : list str) :
  In (name, items) (sections r) ->
  occurs_in (lit "BREAKING") name
  \/ (exists item, In item items /\ occurs_in (lit "BREAKING") item) ->
  In (lit "breaking", lit "Breaking") (get_tags r).
Proof.
  intros Hin H. rewrite get_tags_cut. apply breaking_tag_in.
  apply orb_true_iff. right. apply contains_spec.
  assert (Hw : Forall (fun c => letter c = true) (lit "BREAKING"))
    by (repeat constructor).
  apply (repr_dict_entry _ name items _ Hin).
  destruct H as [H|(item & Hit & H)].
  - left. now apply repr_str_word.
  - right. apply repr_list_item with (item := item); [exact Hit|].
    now apply repr_str_word.
Qed.

Lemma breaking_word_tag_witness :
  In (lit "breaking", lit "Breaking")
     (get_tags (mkRelease (lit "2.0") (lit "2025-01-02") [] []
                  [(lit "Changed", [lit "BREAKING: new API"])])).
Proof.
  refine (breaking_word_tag
            (mkRelease (lit "2.0") (lit "2025-01-02") [] []
               [(lit "Changed", [lit "BREAKING: new API"])])
            (lit "Changed") [lit "BREAKING: new API"] _ _).
  - now left.
  - right. exists (lit "BREAKING: new API"). split; [now left|].
    exists [], (lit ": new API"). reflexivity.
Defined.

(** ** Dates, again *)

Lemma strptime_valid (s : str) (dt : Datetime.datetime) :
  Datetime.strptime s = Some dt ->
  Datetime.valid (Datetime.year dt) (Datetime.month dt) (Datetime.day dt)
  = true.
Proof.
  unfold Datetime.strptime.
  destruct (Re.rmatch Datetime.ymd_re s) as [[gs rest]|]; [|discriminate].
  destruct gs as [|y [|m [|d [|]]]]; try discriminate.
  destruct rest; [|discriminate].
  destruct (Datetime.valid _ _ _) eqn:V; [|discriminate].
  intros H; injection H as <-. exact V.
Qed.

Lemma month_name_head (m : Z) :
  (1 <= m <= 12)%Z ->
  exists c t, Datetime.month_name m = c :: t /\ Py.isdigit c = false.
Proof.
  intros H.
  assert (E : (m = 1 \/ m = 2 \/ m = 3 \/ m = 4 \/ m = 5 \/ m = 6 \/ m = 7
               \/ m = 8 \/ m = 9 \/ m = 10 \/ m = 11 \/ m = 12)%Z) by lia.
  repeat (destruct E as [->|E]); try subst m;
    eexists _, _; split; reflexivity.
Qed.

Lemma strptime_no_digit (c : ascii) (t : str) :
  Py.isdigit c = false -> Datetime.strptime (c :: t) = None.
Proof.
  intros Hc. unfold Datetime.strptime, Re.rmatch. rewrite ymd_re_eq.
  gopen. cbn [Re.run]. now rewrite Hc.
Qed.

(** X11.  Formatting a date twice is formatting it once: what
    [format_date] returns is never taken for a date again. *)
Theorem format_date_idempotent (strftime_Y : Z -> str) (s : str) :
  format_date strftime_Y (format_date strftime_Y s) = format_date strftime_Y s.
Proof.
  unfold format_date at 2 3.
  destruct (Datetime.strptime s) as [dt|] eqn:E.
  - apply strptime_valid, valid_ranges in E as [Hm _].
    destruct (month_name_head _ Hm) as (c & t & Em & Hc).
    unfold Datetime.strftime. rewrite Em. simpl app.
    unfold format_date. now rewrite strptime_no_digit.
  - unfold format_date. now rewrite E.
Qed.

(** ** The title, again *)

Lemma first_bold_some (items : list str) (t : str) :
  first_bold items = Some t ->
  exists item, In item items /\ bold_of item = Some t.
Proof.
  induction items as [|x items IH]; rewrite first_bold_eq; [discriminate|].
  destruct (bold_of x) as [u|] eqn:E.
  - intros H; injection H as <-. exists x. split; [now left | exact E].
  - intros H. destruct (IH H) as (item & Hin & Hb).
    exists item. split; [now right | exact Hb].
Qed.

(** X12.  The title of a record is of one of three kinds: the text of the
    bold span an item of [Added] begins with, which is not empty and holds
    no star; or at most 53 characters that agree with the first item of
    [Added] on their first 50; or, with no item in [Added], the word
    Version and the version of the record. *)
Theorem get_title_shape (r : release) :
  (exists item,
     In item (added_of r) /\ bold_span item (get_title r)
     /\ get_title r <> [] /\ ~ In "*"%char (get_title r))
  \/ (exists first rest,
        added_of r = first :: rest /\ length (get_title r) <= 53
        /\ firstn 50 (get_title r) = firstn 50 first)
  \/ (added_of r = [] /\ get_title r = lit "Version " ++ version r).
Proof.
  rewrite get_title_eq.
  destruct (added_of r) as [|first rest] eqn:Ea; [right; right; auto|].
  destruct (first_bold (first :: rest)) as [t|] eqn:F.
  - left. apply first_bold_some in F as (item & Hin & Hb).
    apply bold_of_spec in Hb. exists item. split; [exact Hin|].
    split; [exact Hb|]. inversion Hb; subst. auto.
  - right; left. exists first, rest. split; [reflexivity|].
    destruct (50 <? length first) eqn:L.
    + apply Nat.ltb_lt in L.
      assert (Hl : length (firstn 50 first) = 50)
        by (rewrite length_firstn; lia).
      split.
      * rewrite length_app, Hl. simpl. lia.
      * rewrite firstn_app, Hl, Nat.sub_diag, firstn_O, app_nil_r.
        apply firstn_all2. lia.
    + apply Nat.ltb_ge in L. split; [lia | reflexivity].
Qed.

(** ** The page of a release, again *)

Lemma release_fragment_date (version date title tags_html sections_html : str) :
  occurs_in (html "<div class=`release-date`>" ++ date ++ lit "</div>")
            (release_fragment version date title tags_html sections_html).
Proof.
  unfold release_fragment.
  do 2 apply occurs_in_app_r.
  exists (html " -->
                <div class=`release`>
                    <div class=`release-meta`>
                        "),
         (html "
                        <div class=`release-version`>" ++ version
          ++ html "</div>
                    </div>
                    <div class=`release-content`>
                        <h2 class=`release-title`>" ++ escape_html title
          ++ html "</h2>
                        <div class=`release-tags`>
                            " ++ tags_html
          ++ html "
                        </div>
" ++ sections_html ++ html "
                    </div>
                </div>
").
  change (html " -->
                <div class=`release`>
                    <div class=`release-meta`>
                        <div class=`release-date`>")
    with (html " -->
                <div class=`release`>
                    <div class=`release-meta`>
                        " ++ html "<div class=`release-date`>").
  change (html "</div>
                        <div class=`release-version`>")
    with (lit "</div>" ++ html "
                        <div class=`release-version`>").
  now rewrite <- !app_assoc.
Qed.

Lemma release_fragment_version
      (version date title tags_html sections_html : str) :
  occurs_in (html "<div class=`release-version`>" ++ version ++ lit "</div>")
            (release_fragment version date title tags_html sections_html).
Proof.
  unfold release_fragment.
  do 4 apply occurs_in_app_r.
  exists (html "</div>
                        "),
         (html "
                    </div>
                    <div class=`release-content`>
                        <h2 class=`release-title`>" ++ escape_html title
          ++ html "</h2>
                        <div class=`release-tags`>
                            " ++ tags_html
          ++ html "
                        </div>
" ++ sections_html ++ html "
                    </div>
                </div>
").
  change (html "</div>
                        <div class=`release-version`>")
    with (html "</div>
                        " ++ html "<div class=`release-version`>").
  change (html "</div>
                    </div>
                    <div class=`release-content`>
                        <h2 class=`release-title`>")
    with (lit "</div>" ++ html "
                    </div>
                    <div class=`release-content`>
                        <h2 class=`release-title`>").
  now rewrite <- !app_assoc.
Qed.

Lemma release_fragment_tags (p version date title tags_html sections_html : str) :
  occurs_in p tags_html ->
  occurs_in p (release_fragment version date title tags_html sections_html).
Proof.
  intros H. unfold release_fragment.
  do 9 apply occurs_in_app_r. now apply occurs_in_app_l.
Qed.

(** X13.  The page of a release shows the version as it is, with no
    escaping, the date as [format_date] gives it, and one span for each of
    the tags of the record, with the kind of the tag as class and its label
    as text. *)
Theorem generate_release_html_meta (strftime_Y : Z -> str) (r : release) :
  occurs_in (html "<div class=`release-version`>" ++ version r ++ lit "</div>")
            (generate_release_html strftime_Y r)
  /\ occurs_in (html "<div class=`release-date`>"
                ++ format_date strftime_Y (date r) ++ lit "</div>")
               (generate_release_html strftime_Y r)
  /\ (forall kind label,
        In (kind, label) (get_tags r) ->
        occurs_in (html "<span class=`tag " ++ kind ++ html "`>" ++ label
                   ++ lit "</span>")
                  (generate_release_html strftime_Y r)).
Proof.
  split; [apply release_fragment_version|].
  split; [apply release_fragment_date|].
  intros kind label Hin. unfold generate_release_html.
  apply release_fragment_tags.
  apply occurs_in_join with (x := tag_span (kind, label)).
  - now apply in_map.
  - exists [], []. now rewrite app_nil_r.
Qed.

(** ** The whole run *)

Lemma generate_html_page (strftime_Y : Z -> str) (rs : list release) :
  generate_html strftime_Y rs
  = template_head
    ++ concat (map (generate_release_html strftime_Y) (firstn 15 rs))
    ++ template_tail.
Proof.
  unfold generate_html. fold placeholder.
  destruct template_split as [H1 H2].
  rewrite (replace_first placeholder _ HTML_TEMPLATE template_cut);
    [|discriminate|exact H1].
  fold template_head. fold template_tail.
  rewrite (replace_absent placeholder _ template_tail H2). reflexivity.
Qed.

Lemma headers_none (lines : list str) :
  Forall (fun line => header_of line = None) lines -> headers lines = [].
Proof.
  induction 1 as [|line rest H _ IH]; simpl; [reflexivity|]. now rewrite H.
Qed.

(** X14.  From the text of the changelog to the page: the run raises
    nothing, and the page is the template with the pages of the first
    fifteen parsed records in the place of its placeholder; a changelog
    with no release header gives the template with nothing in that
    place. *)
Theorem main_html_page (strftime_Y : Z -> str) (content : str) :
  exists rs,
    parse_changelog content = inr rs
    /\ main_html strftime_Y content
       = inr (template_head
              ++ concat (map (generate_release_html strftime_Y) (firstn 15 rs))
              ++ template_tail)
    /\ (Forall (fun line => header_of line = None) (Py.split nl content) ->
        main_html strftime_Y content = inr (template_head ++ template_tail)).
Proof.
  unfold main_html. rewrite parse_changelog_lines. unfold parse_lines.
  destruct (loop_wf (Py.split nl content) _ wf_init) as (st & E & _).
  rewrite E. exists (flush st). split; [reflexivity|].
  rewrite generate_html_page. split; [reflexivity|].
  intros Hno. pose proof (loop_tokens _ _ _ E) as T.
  rewrite (headers_none _ Hno) in T. simpl in T.
  destruct (flush st); [reflexivity | discriminate T].
Qed.

Lemma main_html_page_witness :
  main_html Datetime.dec4 (lit "# Changelog
no release yet")
  = inr (template_head ++ template_tail).
Proof.
  destruct (main_html_page Datetime.dec4 (lit "# Changelog
no release yet")) as (rs & _ & _ & H).
  apply H. repeat constructor.
Defined.
